(** * fetch_metrics: deduplication, normalisation and aggregation of works

    A shallow embedding of [scripts/fetch_metrics.py].  Raw works are JSON
    values as [requests] decodes them; every Python function becomes a Rocq
    function into the [result] monad, whose [Raise] branch is the Python
    exception that escapes the call.  Library functions of Python whose
    behaviour depends on the Unicode tables or on float formatting are the
    fields of the class [Builtins]; the theorems hold for every
    implementation of that class. *)

From Stdlib Require Import ZArith List String Ascii Bool Lia Sorted Permutation.
From Stdlib Require Import SpecFloat DecimalString.
Import ListNotations.
Local Open Scope string_scope.
Local Open Scope Z_scope.

(** ** Exceptions and the error monad *)

Inductive exn : Type :=
| AttributeError
| TypeError
| ValueError
| OverflowError
| KeyError
| IndexError.

Inductive result (A : Type) : Type :=
| Ok (a : A)
| Raise (e : exn).

Arguments Ok {A} a.
Arguments Raise {A} e.

Definition bind {A B : Type} (m : result A) (k : A -> result B) : result B :=
  match m with
  | Ok a => k a
  | Raise e => Raise e
  end.

Notation "x <- m ;; k" := (bind m (fun x => k))
  (at level 61, m at next level, right associativity).

Fixpoint mapM {A B : Type} (f : A -> result B) (l : list A) : result (list B) :=
  match l with
  | [] => Ok []
  | x :: l' => y <- f x ;; ys <- mapM f l' ;; Ok (y :: ys)
  end.

(** ** JSON values

    A dict is the list of its items in insertion order; [dict_get] returns the
    first binding of a key.  Floats are IEEE binary64 values in the
    representation of [SpecFloat]. *)

#[warnings="-register-all"]
Inductive value : Type :=
| VNone
| VBool (b : bool)
| VInt (z : Z)
| VFloat (f : spec_float)
| VStr (s : string)
| VList (l : list value)
| VDict (d : list (string * value)).

Fixpoint dict_get (k : string) (d : list (string * value)) : option value :=
  match d with
  | [] => None
  | (k', v) :: d' => if String.eqb k k' then Some v else dict_get k d'
  end.

(** [x.get(k)]: a missing key gives [None]; a receiver that is not a dict has
    no attribute [get]. *)
Definition py_get (x : value) (k : string) : result value :=
  match x with
  | VDict d => Ok (match dict_get k d with Some v => v | None => VNone end)
  | _ => Raise AttributeError
  end.

(** [x.get(k, dflt)] *)
Definition py_get_default (x : value) (k : string) (dflt : value) : result value :=
  match x with
  | VDict d => Ok (match dict_get k d with Some v => v | None => dflt end)
  | _ => Raise AttributeError
  end.

(** [bool(x)] *)
Definition truthy (x : value) : bool :=
  match x with
  | VNone => false
  | VBool b => b
  | VInt z => negb (z =? 0)
  | VFloat (S754_zero _) => false
  | VFloat _ => true
  | VStr s => negb (String.eqb s "")
  | VList l => match l with [] => false | _ => true end
  | VDict d => match d with [] => false | _ => true end
  end.

(** [x or y] for an operand [y] that is already evaluated *)
Definition py_or (x y : value) : value := if truthy x then x else y.

Definition isinstance_str (x : value) : option string :=
  match x with VStr s => Some s | _ => None end.

(** [int(f)] on a float: truncation towards zero *)
Definition int_of_float (f : spec_float) : result Z :=
  match f with
  | S754_zero _ => Ok 0
  | S754_nan => Raise ValueError
  | S754_infinity _ => Raise OverflowError
  | S754_finite s m e =>
      let a := if 0 <=? e then Z.pos m * 2 ^ e else Z.pos m / 2 ^ (- e) in
      Ok (if s then - a else a)
  end.

(** [float(z)] on an int: round to nearest even, OverflowError out of range *)
Definition float_of_int (z : Z) : result spec_float :=
  match binary_normalize 53 1024 z 0 false with
  | S754_infinity _ => Raise OverflowError
  | f => Ok f
  end.

(** ** Library functions taken as parameters *)

Class Builtins : Type := {
  (** [s.strip()], [s.lower()], [s.upper()], [s.title()] *)
  str_strip : string -> string;
  str_lower : string -> string;
  str_upper : string -> string;
  str_title : string -> string;
  (** [unicodedata.normalize("NFKD", s)] *)
  nfkd : string -> string;
  (** ["".join(c for c in s if not unicodedata.combining(c))] *)
  drop_combining : string -> string;
  (** [" ".join(s.split())] *)
  join_split : string -> string;
  (** [re.sub(r"^\s*\d+\s*[\.\-:\)]\s*", "", s)] *)
  re_sub_enumerator : string -> string;
  (** [re.sub(r"\s+", " ", s)] *)
  re_sub_spaces : string -> string;
  (** [re.sub(r"[^\w\s]", "", s)] *)
  re_sub_punct : string -> string;
  (** [_HAL_RE.search(s)] finds a match *)
  hal_re_search : string -> bool;
  (** [int(s)] on text; [None] when it raises ValueError *)
  int_of_str : string -> option Z;
  (** [float(s)] on text; [None] when it raises ValueError *)
  float_of_str : string -> option spec_float;
  (** [repr(f)] of a float and [repr(s)] of text *)
  float_repr : spec_float -> string;
  str_repr : string -> string;
  (** [sorted(xs, key=k, reverse=True)] on items paired with their evaluated
      keys, the keys being arbitrary JSON values; raises when two keys that
      the sort compares are not comparable *)
  sorted_by_value_desc : list (value * value) -> result (list value)
}.

(** What the theorems below need to know about the parameters. *)
Class BuiltinLaws (L : Builtins) : Prop := {
  strip_empty : str_strip "" = "";
  upper_empty : forall s, str_upper s = "" <-> s = "";
  sorted_nil : sorted_by_value_desc [] = Ok []
}.

(** ** Text helpers that do not depend on the Unicode tables *)

(** [s.replace(old, new)] for a non-empty [old]: leftmost non-overlapping
    occurrences.  [skip] counts the characters of a match still to be
    dropped. *)
Fixpoint replace_from (old new : string) (skip : nat) (s : string) : string :=
  match s with
  | EmptyString => EmptyString
  | String c s' =>
      match skip with
      | S k => replace_from old new k s'
      | O =>
          if String.prefix old s
          then new ++ replace_from old new (Nat.pred (String.length old)) s'
          else String c (replace_from old new O s')
      end
  end.

Definition str_replace (s old new : string) : string := replace_from old new 0 s.

(** [s.startswith(p)] *)
Definition startswith (s p : string) : bool := String.prefix p s.

(** [s.lstrip(c)] for a single character [c] *)
Fixpoint lstrip_char (c : ascii) (s : string) : string :=
  match s with
  | EmptyString => EmptyString
  | String c' s' => if Ascii.eqb c c' then lstrip_char c s' else s
  end.

Definition nonempty (s : string) : bool := negb (String.eqb s "").

(** [str(z)] on an int *)
Definition str_of_int (z : Z) : string := NilZero.string_of_int (Z.to_int z).

Fixpoint join (sep : string) (l : list string) : string :=
  match l with
  | [] => ""
  | [x] => x
  | x :: l' => x ++ sep ++ join sep l'
  end.

(** [try: ... except Exception: return handler] *)
Definition try_except {A : Type} (m : result A) (handler : A) : A :=
  match m with
  | Ok a => a
  | Raise _ => handler
  end.

(** [sorted(l, key=key, reverse=True)] where the keys are totally ordered by
    [ltb]: the sort is stable, so equal keys keep the order of [l].  The list
    is decorated with the keys, which Python evaluates before it compares. *)
Section Sorting.
Context {A K : Type} (ltb : K -> K -> bool).

Fixpoint insert_desc (x : K * A) (l : list (K * A)) : list (K * A) :=
  match l with
  | [] => [x]
  | y :: l' => if ltb (fst x) (fst y) then y :: insert_desc x l' else x :: l
  end.

Fixpoint sort_desc (l : list (K * A)) : list (K * A) :=
  match l with
  | [] => []
  | x :: l' => insert_desc x (sort_desc l')
  end.
End Sorting.

(** Ascending insertion sort on distinct integer keys, [sorted(d.keys())]. *)
Fixpoint insert_asc (x : Z) (l : list Z) : list Z :=
  match l with
  | [] => [x]
  | y :: l' => if x <=? y then x :: l else y :: insert_asc x l'
  end.

Fixpoint sorted_asc (l : list Z) : list Z :=
  match l with
  | [] => []
  | x :: l' => insert_asc x (sorted_asc l')
  end.

(** ** The normalised work

    [normalize_work] returns a dict literal with a fixed set of keys; the
    record has one field per key, typed by what the code stores there. *)

Record paper : Type := mkPaper {
  p_id : option string;
  p_title : string;
  p_year : option Z;
  p_venue : string;
  p_citations : Z;
  p_doi : option string;
  p_url : string;
  p_hal_url : option string;
  p_type : string;
  p_is_oa : bool;
  p_oa_status : string;
  p_fwci : option spec_float;
  p_citation_norm_percentile : value;
  p_topics : list string;
  p_keywords : list string;
  p_coauthors : list string;
  p_source : string
}.

(** The report that [main] serialises to [data/metrics.json]. *)
Record report : Type := mkReport {
  updated_at : string;
  author_openalex_id : string;
  papers_tracked : Z;
  total_citations : Z;
  citations_by_year : list (Z * Z);
  works : list paper
}.

Section Model.
Context {L : Builtins}.

(** *** Author identifier *)

Definition normalize_author_id (raw : option string) : result string :=
  let raw := str_strip (match raw with Some s => s | None => "" end) in
  let raw := str_strip (str_replace raw "https://openalex.org/" "") in
  let raw := str_upper raw in
  if negb (nonempty raw) then Raise ValueError
  else if startswith raw "A" then Ok raw
  else if negb (startswith raw "A") && negb (startswith raw "A")
       then Ok ("A" ++ lstrip_char "A"%char raw)
       else Ok raw.

Definition normalize_person_name (name : string) : string :=
  if negb (nonempty name) then ""
  else str_title (join_split (drop_combining (nfkd name))).

(** *** Field extraction *)

(** [isinstance(v, str) and v.startswith("http")] *)
Definition http_url (v : value) : option string :=
  match v with
  | VStr s => if startswith s "http" then Some s else None
  | _ => None
  end.

Definition pick_best_url (work : value) : result string :=
  ids <- py_get work "ids" ;;
  doi_url <- py_get (py_or ids (VDict [])) "doi" ;;
  match http_url doi_url with
  | Some u => Ok u
  | None =>
      loc <- py_get work "primary_location" ;;
      landing <- py_get (py_or loc (VDict [])) "landing_page_url" ;;
      match http_url landing with
      | Some u => Ok u
      | None =>
          wid <- py_get work "id" ;;
          match wid with
          | VStr s =>
              if startswith s "http" then Ok s
              else Ok ("https://openalex.org/" ++ str_replace s "https://openalex.org/" "")
          | _ => Ok "#"
          end
      end
  end.

(** [isinstance(v, str) and v.strip()], giving [v.strip()] *)
Definition stripped_text (v : value) : option string :=
  match v with
  | VStr s => if nonempty (str_strip s) then Some (str_strip s) else None
  | _ => None
  end.

Definition extract_venue (work : value) : result string :=
  pl <- py_get work "primary_location" ;;
  src <- py_get (py_or pl (VDict [])) "source" ;;
  name <- py_get (py_or src (VDict [])) "display_name" ;;
  match stripped_text name with
  | Some n => Ok n
  | None =>
      bol <- py_get work "best_oa_location" ;;
      src2 <- py_get (py_or bol (VDict [])) "source" ;;
      name2 <- py_get (py_or src2 (VDict [])) "display_name" ;;
      match stripped_text name2 with
      | Some n => Ok n
      | None => Ok "—"
      end
  end.

(** The string values among [vs], in order. *)
Fixpoint only_str (vs : list value) : list string :=
  match vs with
  | [] => []
  | VStr s :: vs' => s :: only_str vs'
  | _ :: vs' => only_str vs'
  end.

Definition try_find_hal_url (work : value) : result (option string) :=
  ids <- py_get work "ids" ;;
  c1 <- mapM (py_get (py_or ids (VDict []))) ["openalex"; "doi"; "pmid"; "pmcid"; "mag"] ;;
  loc <- py_get work "primary_location" ;;
  c2 <- mapM (py_get (py_or loc (VDict []))) ["landing_page_url"; "pdf_url"] ;;
  hv <- py_get work "host_venue" ;;
  v <- py_get (py_or hv (VDict [])) "url" ;;
  let candidates := (only_str c1 ++ only_str c2 ++ only_str [v])%list in
  Ok (find (fun u => nonempty u && hal_re_search u) candidates).

(** [int(x)] *)
Definition py_int (x : value) : result Z :=
  match x with
  | VNone => Raise TypeError
  | VBool b => Ok (if b then 1 else 0)
  | VInt z => Ok z
  | VFloat f => int_of_float f
  | VStr s => match int_of_str s with Some z => Ok z | None => Raise ValueError end
  | VList _ => Raise TypeError
  | VDict _ => Raise TypeError
  end.

(** [float(x)] *)
Definition py_float (x : value) : result spec_float :=
  match x with
  | VNone => Raise TypeError
  | VBool b => float_of_int (if b then 1 else 0)
  | VInt z => float_of_int z
  | VFloat f => Ok f
  | VStr s => match float_of_str s with Some f => Ok f | None => Raise ValueError end
  | VList _ => Raise TypeError
  | VDict _ => Raise TypeError
  end.

Definition _safe_float (x : value) : option spec_float :=
  try_except (f <- py_float x ;; Ok (Some f)) None.

Definition _safe_int (x : value) : option Z :=
  try_except (z <- py_int x ;; Ok (Some z)) None.

Definition extract_oa_status (work : value) : result string :=
  oa <- py_get work "open_access" ;;
  s <- py_get (py_or oa (VDict [])) "oa_status" ;;
  match stripped_text s with
  | Some t => Ok (str_lower t)
  | None => Ok "unknown"
  end.

Definition extract_is_oa (work : value) : result bool :=
  oa <- py_get work "open_access" ;;
  v <- py_get (py_or oa (VDict [])) "is_oa" ;;
  match v with
  | VBool b => Ok b
  | _ => Ok false
  end.

(** The loop body shared by [extract_topics] and [extract_keywords]: sort the
    entries by their [score] (0 when absent), highest first, keep the first
    [top_k] and collect the non-blank display names. *)
Definition top_display_names (entries : value) (top_k : nat) : result (list string) :=
  match entries with
  | VList l =>
      keys <- mapM (fun x => py_get_default x "score" (VInt 0)) l ;;
      ranked <- sorted_by_value_desc (combine keys l) ;;
      names <- mapM (fun t => py_get (py_or t (VDict [])) "display_name")
                    (firstn top_k ranked) ;;
      Ok (flat_map (fun n => match stripped_text n with
                             | Some s => [s]
                             | None => []
                             end) names)
  | _ => Ok []
  end.

Definition extract_topics (work : value) (top_k : nat) : result (list string) :=
  topics <- py_get work "topics" ;;
  top_display_names (py_or topics (VList [])) top_k.

Definition extract_keywords (work : value) (top_k : nat) : result (list string) :=
  kws <- py_get work "keywords" ;;
  top_display_names (py_or kws (VList [])) top_k.

(** One iteration of the loop of [extract_coauthors]: the name to append, if
    any. *)
Definition coauthor_name (self_author_id : string) (a : value) : result (option string) :=
  au <- py_get (py_or a (VDict [])) "author" ;;
  let au := py_or au (VDict []) in
  aid <- py_get au "id" ;;
  raw_name <- py_get au "display_name" ;;
  let is_self :=
    match aid with
    | VStr s => String.eqb (str_replace s "https://openalex.org/" "") self_author_id
    | _ => false
    end in
  if is_self then Ok None
  else match raw_name with
       | VStr n => if nonempty (str_strip n) then Ok (Some (normalize_person_name n))
                   else Ok None
       | _ => Ok None
       end.

Definition extract_coauthors (work : value) (self_author_id : string)
  : result (list string) :=
  auths <- py_get work "authorships" ;;
  match py_or auths (VList []) with
  | VList l =>
      names <- mapM (coauthor_name self_author_id) l ;;
      Ok (flat_map (fun o => match o with Some n => [n] | None => [] end) names)
  | _ => Ok []
  end.

(** *** normalize_work *)

(** [v.strip()] on a value that need not be text *)
Definition py_strip (v : value) : result string :=
  match v with
  | VStr s => Ok (str_strip s)
  | _ => Raise AttributeError
  end.

(** [s or dflt] on text *)
Definition str_or (s dflt : string) : string := if nonempty s then s else dflt.

(** [n or 0] on an optional int *)
Definition int_or_zero (n : option Z) : Z :=
  match n with
  | Some z => if z =? 0 then 0 else z
  | None => 0
  end.

Definition normalize_work (work : value) (self_author_id : string) : result paper :=
  t <- py_get work "title" ;;
  title <- py_strip (py_or t (VStr "")) ;;
  let title := str_or title "Untitled" in
  y <- py_get work "publication_year" ;;
  let year := _safe_int y in
  c <- py_get work "cited_by_count" ;;
  let cites := int_or_zero (_safe_int c) in
  ids <- py_get work "ids" ;;
  let ids := py_or ids (VDict []) in
  d <- py_get work "doi" ;;
  doi <- (if truthy d then Ok d else py_get ids "doi") ;;
  let doi :=
    match doi with
    | VStr s => Some (str_replace (str_strip s) "https://doi.org/" "")
    | _ => None
    end in
  oid <- py_get work "id" ;;
  let openalex_id :=
    match oid with
    | VStr s => Some (str_replace s "https://openalex.org/" "")
    | _ => None
    end in
  venue <- extract_venue work ;;
  url <- pick_best_url work ;;
  hal_url <- try_find_hal_url work ;;
  ty <- py_get work "type" ;;
  ty <- (if truthy ty then Ok ty
         else tc <- py_get work "type_crossref" ;; Ok (py_or tc (VStr ""))) ;;
  ty <- py_strip ty ;;
  is_oa <- extract_is_oa work ;;
  oa_status <- extract_oa_status work ;;
  fw <- py_get work "fwci" ;;
  cnp <- py_get work "citation_normalized_percentile" ;;
  cnp <- py_get (py_or cnp (VDict [])) "value" ;;
  topics <- extract_topics work 3 ;;
  keywords <- extract_keywords work 10 ;;
  coauthors <- extract_coauthors work self_author_id ;;
  Ok {| p_id := openalex_id;
        p_title := title;
        p_year := year;
        p_venue := venue;
        p_citations := cites;
        p_doi := doi;
        p_url := url;
        p_hal_url := hal_url;
        p_type := str_or ty "—";
        p_is_oa := is_oa;
        p_oa_status := oa_status;
        p_fwci := _safe_float fw;
        p_citation_norm_percentile := cnp;
        p_topics := topics;
        p_keywords := keywords;
        p_coauthors := coauthors;
        p_source := "OpenAlex" |}.

(** *** Aggregation *)

(** [by_year[y] = by_year.get(y, 0) + n] on an insertion-ordered dict *)
Fixpoint by_year_add (y n : Z) (by_year : list (Z * Z)) : list (Z * Z) :=
  match by_year with
  | [] => [(y, 0 + n)]
  | (y', m) :: rest =>
      if y =? y' then (y', m + n) :: rest else (y', m) :: by_year_add y n rest
  end.

(** [by_year[y]] for a key that may be absent (0 then) *)
Fixpoint by_year_get (y : Z) (by_year : list (Z * Z)) : Z :=
  match by_year with
  | [] => 0
  | (y', m) :: rest => if y =? y' then m else by_year_get y rest
  end.

(** The first loop of [build_citations_by_year]. *)
Fixpoint by_year_loop (papers : list paper) (by_year : list (Z * Z)) : list (Z * Z) :=
  match papers with
  | [] => by_year
  | p :: papers' =>
      let c := int_or_zero (Some (p_citations p)) in
      match p_year p with
      | Some y => by_year_loop papers' (by_year_add y c by_year)
      | None => by_year_loop papers' by_year
      end
  end.

Definition build_citations_by_year (papers : list paper) : list (Z * Z) :=
  let by_year := by_year_loop papers [] in
  map (fun y => (y, by_year_get y by_year)) (sorted_asc (map fst by_year)).

(** *** Identity keys *)

Definition _norm_doi (doi : option string) : option string :=
  match doi with
  | None => None
  | Some doi =>
      if negb (nonempty doi) then None
      else
        let d := str_lower (str_strip doi) in
        let d := str_replace (str_replace d "https://doi.org/" "") "http://doi.org/" "" in
        let d := str_replace d "doi:" "" in
        if nonempty d then Some d else None
  end.

Definition _get_doi (work : value) : result (option string) :=
  doi <- py_get work "doi" ;;
  match doi with
  | VStr s => Ok (_norm_doi (Some s))
  | _ =>
      ids <- py_get work "ids" ;;
      match py_or ids (VDict []) with
      | VDict d =>
          match dict_get "doi" d with
          | Some (VStr s) => Ok (_norm_doi (Some s))
          | _ => Ok None
          end
      | _ => Ok None
      end
  end.

(** The loop of [_get_hal_id] over the entries of [locations]. *)
Fixpoint scan_locations (locs : list value) : result (option string) :=
  match locs with
  | [] => Ok None
  | loc :: locs' =>
      loc_id <- py_get loc "id" ;;
      match loc_id with
      | VStr s => if startswith s "pmh:oai:HAL:" then Ok (Some s) else scan_locations locs'
      | _ => scan_locations locs'
      end
  end.

(** [for loc in (work.get("locations") or [])]: a non-empty text or dict
    yields text items, on which [loc.get] fails at once; numbers and booleans
    are not iterable. *)
Definition _get_hal_id (work : value) : result (option string) :=
  _ <- py_get work "ids" ;;
  locs <- py_get work "locations" ;;
  found <- match py_or locs (VList []) with
           | VList l => scan_locations l
           | VStr _ => Raise AttributeError
           | VDict _ => Raise AttributeError
           | _ => Raise TypeError
           end ;;
  match found with
  | Some h => Ok (Some h)
  | None =>
      pl <- py_get work "primary_location" ;;
      pl_id <- py_get (py_or pl (VDict [])) "id" ;;
      match pl_id with
      | VStr s => if startswith s "pmh:oai:HAL:" then Ok (Some s) else Ok None
      | _ => Ok None
      end
  end.

Definition _norm_title (title : value) : result string :=
  if negb (truthy title) then Ok ""
  else match title with
       | VStr s =>
           let t := str_strip (str_lower s) in
           let t := re_sub_enumerator t in
           let t := re_sub_spaces t in
           let t := re_sub_punct t in
           Ok (str_strip t)
       | _ => Raise AttributeError
       end.

(** [repr(v)] and [str(v)] *)
Fixpoint py_repr (v : value) : string :=
  match v with
  | VNone => "None"
  | VBool b => if b then "True" else "False"
  | VInt z => str_of_int z
  | VFloat f => float_repr f
  | VStr s => str_repr s
  | VList l => "[" ++ join ", " (map py_repr l) ++ "]"
  | VDict d =>
      "{" ++ join ", " (map (fun kv => str_repr (fst kv) ++ ": " ++ py_repr (snd kv)) d) ++ "}"
  end.

Definition py_str (v : value) : string :=
  match v with
  | VStr s => s
  | _ => py_repr v
  end.

(** [auths[0].get("author")] for a truthy [auths]: the first character of a
    text is text and has no [get]; a dict decoded from JSON has only text
    keys, so the key [0] is absent; numbers are not subscriptable. *)
Definition first_entry_author (auths : value) : result value :=
  match auths with
  | VList (a :: _) => py_get a "author"
  | VList [] => Raise IndexError
  | VStr _ => Raise AttributeError
  | VDict _ => Raise KeyError
  | _ => Raise TypeError
  end.

Definition _first_author (work : value) : result string :=
  auths <- py_get work "authorships" ;;
  let auths := py_or auths (VList []) in
  if negb (truthy auths) then Ok ""
  else
    a0 <- first_entry_author auths ;;
    name <- py_get (py_or a0 (VDict [])) "display_name" ;;
    Ok (str_lower (str_strip (py_str (py_or name (VStr ""))))).

(** *** Deduplication *)

(** The key of a bucket: a tag and a text, [Tuple[str, str]]. *)
Definition key : Type := (string * string)%type.

Definition key_eqb (a b : key) : bool :=
  String.eqb (fst a) (fst b) && String.eqb (snd a) (snd b).

(** The body of the first loop of [dedupe_works]: the identity key of [w]. *)
Definition dedupe_key (w : value) : result key :=
  doi <- _get_doi w ;;
  match doi with
  | Some d => Ok ("doi", d)
  | None =>
      hal <- _get_hal_id w ;;
      match hal with
      | Some h => Ok ("hal", h)
      | None =>
          t <- py_get w "title" ;;
          t <- (if truthy t then Ok t else py_get w "display_name") ;;
          nt <- _norm_title t ;;
          y <- py_get w "publication_year" ;;
          fa <- _first_author w ;;
          Ok ("fuzzy", nt ++ "|" ++ py_str y ++ "|" ++ fa)
      end
  end.

(** [buckets.setdefault(key, []).append(w)] on an insertion-ordered dict *)
Fixpoint setdefault_append (k : key) (w : value) (buckets : list (key * list value))
  : list (key * list value) :=
  match buckets with
  | [] => [(k, [w])]
  | (k', g) :: rest =>
      if key_eqb k k' then (k', (g ++ [w])%list) :: rest
      else (k', g) :: setdefault_append k w rest
  end.

Fixpoint fill_buckets (works : list value) (buckets : list (key * list value))
  : result (list (key * list value)) :=
  match works with
  | [] => Ok buckets
  | w :: works' =>
      k <- dedupe_key w ;;
      fill_buckets works' (setdefault_append k w buckets)
  end.

Definition score_t : Type := (Z * Z * Z)%type.

(** Tuple comparison [a < b], component by component. *)
Definition score_ltb (a b : score_t) : bool :=
  let '(a1, a2, a3) := a in
  let '(b1, b2, b3) := b in
  (a1 <? b1) || ((a1 =? b1) && ((a2 <? b2) || ((a2 =? b2) && (a3 <? b3)))).

Definition score (work : value) : result score_t :=
  doi <- _get_doi work ;;
  let has_doi := match doi with Some _ => 1 | None => 0 end in
  c <- py_get work "cited_by_count" ;;
  cites <- py_int (py_or c (VInt 0)) ;;
  bol <- py_get work "best_oa_location" ;;
  loc <- (if truthy bol then Ok bol
          else pl <- py_get work "primary_location" ;; Ok (py_or pl (VDict []))) ;;
  src <- match loc with
         | VDict _ => s <- py_get loc "source" ;; Ok (py_or s (VDict []))
         | _ => Ok (VDict [])
         end ;;
  ty <- py_get src "type" ;;
  let src_type := str_lower (py_str (py_or ty (VStr ""))) in
  let is_repo := if String.eqb src_type "repository" then 1 else 0 in
  let publisher_bonus := 1 - is_repo in
  Ok (has_doi, cites, publisher_bonus).

(** The body of the second loop: the record kept for one bucket. *)
Definition pick_winner (group : list value) : result value :=
  match group with
  | [w] => Ok w
  | _ =>
      keys <- mapM score group ;;
      match sort_desc score_ltb (combine keys group) with
      | (_, winner) :: _ => Ok winner
      | [] => Raise IndexError
      end
  end.

Definition dedupe_works (works : list value) : result (list value) :=
  buckets <- fill_buckets works [] ;;
  mapM (fun kg => pick_winner (snd kg)) buckets.

(** *** The pipeline

    [env] is the value of OPENALEX_AUTHOR_ID when it is set, [fetch] stands
    for [fetch_all_works_for_author] and [now] for the timestamp.  The result
    is the report written to the output file; a [Raise] leaves no output. *)

Definition getenv (env : option string) (dflt : string) : string :=
  match env with
  | Some s => s
  | None => dflt
  end.

Definition paper_sort_key (p : paper) : Z * Z :=
  (int_or_zero (p_year p), int_or_zero (Some (p_citations p))).

Definition pair_ltb (a b : Z * Z) : bool :=
  (fst a <? fst b) || ((fst a =? fst b) && (snd a <? snd b)).

(** [papers.sort(key=..., reverse=True)] *)
Definition sort_papers (papers : list paper) : list paper :=
  map snd (sort_desc pair_ltb (map (fun p => (paper_sort_key p, p)) papers)).

Definition sum_citations (papers : list paper) : Z :=
  fold_left (fun acc p => acc + int_or_zero (Some (p_citations p))) papers 0.

Definition main (env : option string) (fetch : string -> result (list value))
  (now : string) : result report :=
  let raw_author_id := getenv env "A5042578790" in
  author_id <- normalize_author_id (Some raw_author_id) ;;
  works <- fetch author_id ;;
  works <- dedupe_works works ;;
  papers <- mapM (fun w => normalize_work w author_id) works ;;
  let papers := sort_papers papers in
  let total_citations := sum_citations papers in
  let citations_by_year := build_citations_by_year papers in
  Ok {| updated_at := now;
        author_openalex_id := author_id;
        papers_tracked := Z.of_nat (List.length papers);
        total_citations := total_citations;
        citations_by_year := citations_by_year;
        works := papers |}.

End Model.

(** ** An implementation of the parameters on ASCII text

    Byte-wise definitions that agree with CPython on records whose text is
    ASCII.  Outside that fragment they fix one behaviour among others: text
    with a decimal point or an exponent is not converted to a float, a float
    that is not a whole number below 10^16 is not printed in Python's
    shortest form, and a sort whose keys include a NaN or a list may differ.
    The instance runs the model on concrete records and shows that
    [BuiltinLaws] can be met. *)

Module AsciiText.

Definition code (c : ascii) : nat := nat_of_ascii c.

Definition between (lo hi : nat) (c : ascii) : bool :=
  (Nat.leb lo (code c) && Nat.leb (code c) hi)%bool.

(** [c.isspace()] *)
Definition is_space (c : ascii) : bool := between 9 13 c || between 28 32 c.

Definition is_digit (c : ascii) : bool := between 48 57 c.
Definition is_upper (c : ascii) : bool := between 65 90 c.
Definition is_lower (c : ascii) : bool := between 97 122 c.

(** [\w] *)
Definition is_word (c : ascii) : bool :=
  is_digit c || is_upper c || is_lower c || Ascii.eqb c "_"%char.

Definition lower_char (c : ascii) : ascii :=
  if is_upper c then ascii_of_nat (code c + 32) else c.

Definition upper_char (c : ascii) : ascii :=
  if is_lower c then ascii_of_nat (code c - 32) else c.

Fixpoint map_chars (f : ascii -> ascii) (s : string) : string :=
  match s with
  | EmptyString => EmptyString
  | String c s' => String (f c) (map_chars f s')
  end.

Definition lower (s : string) : string := map_chars lower_char s.
Definition upper (s : string) : string := map_chars upper_char s.

Fixpoint lstrip (s : string) : string :=
  match s with
  | EmptyString => EmptyString
  | String c s' => if is_space c then lstrip s' else s
  end.

Fixpoint rstrip (s : string) : string :=
  match s with
  | EmptyString => EmptyString
  | String c s' =>
      match rstrip s' with
      | EmptyString => if is_space c then EmptyString else String c EmptyString
      | r => String c r
      end
  end.

Definition strip (s : string) : string := rstrip (lstrip s).

(** [s.title()]: a letter is upper-cased when the character before it is not
    a letter, lower-cased otherwise. *)
Fixpoint title_from (after_letter : bool) (s : string) : string :=
  match s with
  | EmptyString => EmptyString
  | String c s' =>
      if is_upper c || is_lower c
      then String (if after_letter then lower_char c else upper_char c) (title_from true s')
      else String c (title_from false s')
  end.

Definition title (s : string) : string := title_from false s.

(** [" ".join(s.split())]: [started] says that a word has been copied,
    [gap] that white space was seen since. *)
Fixpoint join_split_from (started gap : bool) (s : string) : string :=
  match s with
  | EmptyString => EmptyString
  | String c s' =>
      if is_space c then join_split_from started started s'
      else if gap then String " " (String c (join_split_from true false s'))
           else String c (join_split_from true false s')
  end.

Definition rejoin (s : string) : string := join_split_from false false s.

Fixpoint drop_digits (s : string) : string :=
  match s with
  | EmptyString => EmptyString
  | String c s' => if is_digit c then drop_digits s' else s
  end.

(** Removes a leading match of [^\s*\d+\s*[\.\-:\)]\s*]. *)
Definition sub_enumerator (s : string) : string :=
  match lstrip s with
  | String c s1 =>
      if is_digit c then
        match lstrip (drop_digits s1) with
        | String p s2 =>
            if existsb (Ascii.eqb p) ["."; "-"; ":"; ")"]%char then lstrip s2 else s
        | EmptyString => s
        end
      else s
  | EmptyString => s
  end.

(** Replaces every run of white space by one space. *)
Fixpoint sub_spaces_from (in_run : bool) (s : string) : string :=
  match s with
  | EmptyString => EmptyString
  | String c s' =>
      if is_space c
      then if in_run then sub_spaces_from true s' else String " " (sub_spaces_from true s')
      else String c (sub_spaces_from false s')
  end.

Definition sub_spaces (s : string) : string := sub_spaces_from false s.

(** Removes the characters that are neither [\w] nor [\s]. *)
Fixpoint sub_punct (s : string) : string :=
  match s with
  | EmptyString => EmptyString
  | String c s' =>
      if is_word c || is_space c then String c (sub_punct s') else sub_punct s'
  end.

(** [hal.] in any case followed by a word character, at the start of [s] *)
Definition hal_here (s : string) : bool :=
  match s with
  | String h (String a (String l (String d (String w _)))) =>
      Ascii.eqb (lower_char h) "h" && Ascii.eqb (lower_char a) "a"
      && Ascii.eqb (lower_char l) "l" && Ascii.eqb d "." && is_word w
  | _ => false
  end.

(** Search for [\bhal\.\w+\b], which also covers [\bhal\.science\b]:
    [boundary] says that the previous character is not a word character. *)
Fixpoint hal_search_from (boundary : bool) (s : string) : bool :=
  match s with
  | EmptyString => false
  | String c s' => (boundary && hal_here s) || hal_search_from (negb (is_word c)) s'
  end.

Definition hal_search (s : string) : bool := hal_search_from true s.

(** The digits of an int literal, single underscores allowed between them. *)
Fixpoint digits_value (acc : Z) (after_digit : bool) (s : string) : option Z :=
  match s with
  | EmptyString => if after_digit then Some acc else None
  | String c s' =>
      if is_digit c then digits_value (acc * 10 + Z.of_nat (code c - 48)) true s'
      else if Ascii.eqb c "_" && after_digit then digits_value acc false s'
      else None
  end.

(** [int(s)]: optional white space around an optionally signed literal *)
Definition parse_int (s : string) : option Z :=
  match strip s with
  | String "-" s' => option_map Z.opp (digits_value 0 false s')
  | String "+" s' => digits_value 0 false s'
  | s' => digits_value 0 false s'
  end.

(** [float(s)] on the text of a whole number *)
Definition parse_float (s : string) : option spec_float :=
  match strip s, parse_int s with
  | String "-" _, Some 0 => Some (S754_zero true)
  | _, Some z => Some (binary_normalize 53 1024 z 0 false)
  | _, None => None
  end.

(** [repr(f)] *)
Definition repr_float (f : spec_float) : string :=
  match f with
  | S754_nan => "nan"
  | S754_infinity s => if s then "-inf" else "inf"
  | S754_zero s => if s then "-0.0" else "0.0"
  | S754_finite s m e =>
      let sign := if s then "-" else "" in
      if (0 <=? e) && (Z.pos m * 2 ^ e <? 10 ^ 16)
      then sign ++ str_of_int (Z.pos m * 2 ^ e) ++ ".0"
      else if (e <? 0) && (Z.pos m mod 2 ^ (- e) =? 0) && (Z.pos m / 2 ^ (- e) <? 10 ^ 16)
      then sign ++ str_of_int (Z.pos m / 2 ^ (- e)) ++ ".0"
      else sign ++ str_of_int (Z.pos m) ++ "*2**" ++ str_of_int e
  end.

Definition hex_digit (n : nat) : ascii :=
  if Nat.ltb n 10 then ascii_of_nat (48 + n) else ascii_of_nat (87 + n).

Fixpoint contains_char (c : ascii) (s : string) : bool :=
  match s with
  | EmptyString => false
  | String c' s' => Ascii.eqb c c' || contains_char c s'
  end.

(** The body of [repr(s)] between the quotes [q]. *)
Fixpoint repr_chars (q : ascii) (s : string) : string :=
  match s with
  | EmptyString => EmptyString
  | String c s' =>
      let rest := repr_chars q s' in
      if Ascii.eqb c "\" then "\\" ++ rest
      else if Ascii.eqb c q then String "\" (String c rest)
      else if Nat.eqb (code c) 9 then "\t" ++ rest
      else if Nat.eqb (code c) 10 then "\n" ++ rest
      else if Nat.eqb (code c) 13 then "\r" ++ rest
      else if Nat.ltb (code c) 32 || Nat.eqb (code c) 127
      then "\x" ++ String (hex_digit (code c / 16)) (String (hex_digit (code c mod 16)) rest)
      else String c rest
  end.

(** [repr(s)]: single quotes unless [s] has a single and no double quote *)
Definition repr_str (s : string) : string :=
  let dq := ascii_of_nat 34 in
  let q := if contains_char "'" s && negb (contains_char dq s) then dq else "'"%char in
  String q (repr_chars q s ++ String q EmptyString).

(** Numbers as Python compares them: exactly, across int, bool and float. *)
Inductive num : Type :=
| NNan
| NInf (negative : bool)
| NFin (n e : Z).

Definition num_of (v : value) : option num :=
  match v with
  | VBool b => Some (NFin (if b then 1 else 0) 0)
  | VInt z => Some (NFin z 0)
  | VFloat S754_nan => Some NNan
  | VFloat (S754_infinity s) => Some (NInf s)
  | VFloat (S754_zero _) => Some (NFin 0 0)
  | VFloat (S754_finite s m e) => Some (NFin (if s then Z.neg m else Z.pos m) e)
  | _ => None
  end.

Definition num_ltb (a b : num) : bool :=
  match a, b with
  | NNan, _ => false
  | _, NNan => false
  | NInf true, NInf true => false
  | NInf true, _ => true
  | _, NInf true => false
  | NInf false, _ => false
  | _, NInf false => true
  | NFin n1 e1, NFin n2 e2 =>
      let e := Z.min e1 e2 in
      n1 * 2 ^ (e1 - e) <? n2 * 2 ^ (e2 - e)
  end.

(** [a < b] on keys: numbers with numbers, text with text. *)
Definition value_lt (a b : value) : result bool :=
  match num_of a, num_of b with
  | Some x, Some y => Ok (num_ltb x y)
  | _, _ =>
      match a, b with
      | VStr s, VStr t => Ok (String.ltb s t)
      | _, _ => Raise TypeError
      end
  end.

Fixpoint insert_by_value (x : value * value) (l : list (value * value))
  : result (list (value * value)) :=
  match l with
  | [] => Ok [x]
  | y :: l' =>
      lt <- value_lt (fst x) (fst y) ;;
      if lt then r <- insert_by_value x l' ;; Ok (y :: r) else Ok (x :: l)
  end.

Fixpoint sort_by_value (l : list (value * value)) : result (list (value * value)) :=
  match l with
  | [] => Ok []
  | x :: l' => r <- sort_by_value l' ;; insert_by_value x r
  end.

Definition sorted_desc (l : list (value * value)) : result (list value) :=
  r <- sort_by_value l ;; Ok (map snd r).

Definition builtins : Builtins := {|
  str_strip := strip;
  str_lower := lower;
  str_upper := upper;
  str_title := title;
  nfkd := fun s => s;
  drop_combining := fun s => s;
  join_split := rejoin;
  re_sub_enumerator := sub_enumerator;
  re_sub_spaces := sub_spaces;
  re_sub_punct := sub_punct;
  hal_re_search := hal_search;
  int_of_str := parse_int;
  float_of_str := parse_float;
  float_repr := repr_float;
  str_repr := repr_str;
  sorted_by_value_desc := sorted_desc
|}.

End AsciiText.

(** ** Vocabulary of the statements *)

(** Lexicographic order on ranking tuples. *)
Definition score_lt (a b : score_t) : Prop :=
  let '(a1, a2, a3) := a in
  let '(b1, b2, b3) := b in
  a1 < b1 \/ (a1 = b1 /\ (a2 < b2 \/ (a2 = b2 /\ a3 < b3))).

Definition score_le (a b : score_t) : Prop := score_lt a b \/ a = b.

(** [w] derives the identity key [k]. *)
Definition has_key {L : Builtins} (k : key) (w : value) : bool :=
  match dedupe_key w with
  | Ok k' => key_eqb k' k
  | Raise _ => false
  end.

(** [w] is the first record of [g] whose ranking tuple is the greatest:
    strictly above every record before it, not below any record after it. *)
Definition first_maximum {L : Builtins} (g : list value) (w : value) : Prop :=
  exists pre post s,
    g = (pre ++ w :: post)%list
    /\ score w = Ok s
    /\ Forall (fun x => exists sx, score x = Ok sx /\ score_lt sx s) pre
    /\ Forall (fun x => exists sx, score x = Ok sx /\ score_le sx s) post.

(** Two records of one DOI: a repository copy cited 10 times and the journal
    version cited 4 times. *)
Definition repository_copy : value :=
  VDict [("doi", VStr "https://doi.org/10.1/example");
         ("cited_by_count", VInt 10);
         ("primary_location", VDict [("source", VDict [("type", VStr "repository")])])].

Definition journal_version : value :=
  VDict [("doi", VStr "https://doi.org/10.1/example");
         ("cited_by_count", VInt 4);
         ("primary_location", VDict [("source", VDict [("type", VStr "journal")])])].

(** A raw record with a publication year and a citation count. *)
Definition raw_work (y c : Z) : value :=
  VDict [("publication_year", VInt y); ("cited_by_count", VInt c)].

(** The year under which a paper is sorted: 0 when it has none. *)
Definition year_or_zero (p : paper) : Z :=
  match p_year p with
  | Some y => y
  | None => 0
  end.

(** [p] may stand before [q] in the report: newer, or as new and cited at
    least as much. *)
Definition report_order (p q : paper) : Prop :=
  year_or_zero q < year_or_zero p
  \/ (year_or_zero q = year_or_zero p /\ p_citations q <= p_citations p).

Definition sum_Z (l : list Z) : Z := fold_right Z.add 0 l.

Definition published_in (y : Z) (p : paper) : bool :=
  match p_year p with
  | Some y' => y' =? y
  | None => false
  end.

(** The citations of the papers of year [y]. *)
Definition year_sum (y : Z) (papers : list paper) : Z :=
  sum_Z (map p_citations (filter (published_in y) papers)).

(** The identifier once trimmed and rid of the OpenAlex prefix. *)
Definition cleaned_author_id {L : Builtins} (raw : option string) : string :=
  str_strip (str_replace (str_strip (match raw with Some s => s | None => "" end))
                         "https://openalex.org/" "").

(** The three [replace] calls of [_norm_doi]. *)
Definition strip_doi_prefixes (d : string) : string :=
  str_replace (str_replace (str_replace d "https://doi.org/" "") "http://doi.org/" "")
              "doi:" "".

(** The group stored under [k], empty when [k] has no bucket. *)
Fixpoint bucket_get (k : key) (buckets : list (key * list value)) : list value :=
  match buckets with
  | [] => []
  | (k', g) :: rest => if key_eqb k k' then g else bucket_get k rest
  end.

(** The first loop of [dedupe_works] once the keys are known. *)
Definition group_all (kws : list (key * value)) (buckets : list (key * list value))
  : list (key * list value) :=
  fold_left (fun b kw => setdefault_append (fst kw) (snd kw) b) kws buckets.

(** Nothing in a list sorted highest first is smaller than what stands
    after it. *)
Definition desc {A K : Type} (ltb : K -> K -> bool) (l : list (K * A)) : Prop :=
  StronglySorted (fun a b => ltb (fst a) (fst b) = false) l.

(** ** Pagination

    [fetch_all_works_for_author] asks for one page per cursor until a page
    carries no next cursor.  [_get] is the HTTP exchange, taken as a
    parameter: the decoded body of the response, or the exception it raises.
    [text_items] gives the characters of a text, which is what
    [list.extend] appends when a batch is text.  The loop has no bound of its
    own, so the model counts the requests it may still send: [None] says that
    [fuel] requests did not reach a last page. *)

Section Fetch.
Variable _get : string -> value -> result value.
Variable text_items : string -> list value.

Definition OPENALEX_BASE : string := "https://api.openalex.org".

Definition select_fields : list string :=
  ["id"; "doi"; "ids"; "title"; "display_name"; "publication_year";
   "publication_date"; "type"; "type_crossref";
   "cited_by_count"; "counts_by_year"; "fwci"; "citation_normalized_percentile";
   "cited_by_percentile_year";
   "primary_location"; "locations"; "best_oa_location"; "open_access";
   "primary_topic"; "topics"; "keywords"; "concepts";
   "authorships";
   "apc_list"; "apc_paid"; "funders"; "awards"; "sustainable_development_goals";
   "updated_date"].

(** The [params] of one request. *)
Definition request_params (author_id : string) (per_page : Z) (cursor : value) : value :=
  VDict [("filter", VStr ("authorships.author.id:" ++ author_id));
         ("per-page", VInt per_page);
         ("cursor", cursor);
         ("select", VStr (join "," select_fields))].

(** [works.extend(batch)]: a dict is iterated by its keys. *)
Definition list_extend (works : list value) (batch : value) : result (list value) :=
  match batch with
  | VList l => Ok (works ++ l)%list
  | VStr s => Ok (works ++ text_items s)%list
  | VDict d => Ok (works ++ map (fun kv => VStr (fst kv)) d)%list
  | _ => Raise TypeError
  end.

Fixpoint fetch_pages (fuel : nat) (author_id : string) (per_page : Z)
  (cursor : value) (works : list value) : result (option (list value)) :=
  match fuel with
  | O => Ok None
  | S fuel' =>
      data <- _get (OPENALEX_BASE ++ "/works") (request_params author_id per_page cursor) ;;
      batch <- py_get_default data "results" (VList []) ;;
      works <- list_extend works batch ;;
      meta <- py_get_default data "meta" (VDict []) ;;
      cursor <- py_get meta "next_cursor" ;;
      if negb (truthy cursor) then Ok (Some works)
      else fetch_pages fuel' author_id per_page cursor works
  end.

Definition fetch_all_works_for_author (fuel : nat) (author_id : string) (per_page : Z)
  : result (option (list value)) :=
  fetch_pages fuel author_id per_page (VStr "*") [].

(** The response [data] carries the list [batch] and the next cursor [next]
    ([None] when the body has no [meta] or no [next_cursor]). *)
Definition is_page (data : value) (batch : list value) (next : value) : Prop :=
  py_get_default data "results" (VList []) = Ok (VList batch)
  /\ exists meta,
       py_get_default data "meta" (VDict []) = Ok meta /\ py_get meta "next_cursor" = Ok next.

(** From [cursor] on, the server answers with [pages], batch and next cursor
    each, every next cursor leading on; [last] is the cursor they end at. *)
Fixpoint serves (author_id : string) (per_page : Z) (cursor : value)
  (pages : list (list value * value)) (last : value) : Prop :=
  match pages with
  | [] => last = cursor
  | (batch, next) :: rest =>
      (exists data,
          _get (OPENALEX_BASE ++ "/works") (request_params author_id per_page cursor) = Ok data
          /\ is_page data batch next)
      /\ truthy next = true
      /\ serves author_id per_page next rest last
  end.

End Fetch.

(** ** More vocabulary *)

(** The normalisation of a DOI in the order in which the specification
    words it: lower-case, remove the prefixes, then trim.  [_norm_doi] trims
    first and not again. *)
Definition doi_normalised_as_worded {L : Builtins} (doi : string) : string :=
  str_strip (strip_doi_prefixes (str_lower doi)).



(** The value stored under [k], [None] when the key is absent: [d.get(k)]. *)
Definition field (d : list (string * value)) (k : string) : value :=
  match dict_get k d with
  | Some v => v
  | None => VNone
  end.

(** The fields that [normalize_work] reads as nested maps or lists. *)
Definition nested_fields : list string :=
  ["ids"; "primary_location"; "best_oa_location"; "open_access"; "host_venue";
   "citation_normalized_percentile"; "topics"; "keywords"; "authorships"].

(** The fields on which [normalize_work] calls [strip]. *)
Definition text_fields : list string := ["title"; "type"; "type_crossref"].

Definition text_or_falsy (v : value) : Prop :=
  match v with
  | VStr _ => True
  | _ => truthy v = false
  end.

(** The keys of [ks] in the order of their first occurrence. *)
Fixpoint keep_first (ks : list key) : list key :=
  match ks with
  | [] => []
  | k :: ks' => k :: filter (fun k' => negb (key_eqb k' k)) (keep_first ks')
  end.

Definition has_year (p : paper) : bool :=
  match p_year p with
  | Some _ => true
  | None => false
  end.

(** A server that holds three records on two pages, reached by the cursors
    "*" and "c2", and answers any other request with an error. *)
Definition two_page_server (url : string) (params : value) : result value :=
  match params with
  | VDict d =>
      match dict_get "cursor" d with
      | Some (VStr c) =>
          if String.eqb c "*"
          then Ok (VDict [("meta", VDict [("next_cursor", VStr "c2")]);
                          ("results", VList [raw_work 2020 5; raw_work 2021 7])])
          else if String.eqb c "c2"
               then Ok (VDict [("meta", VDict [("next_cursor", VNone)]);
                               ("results", VList [raw_work 2019 1])])
               else Raise ValueError
      | _ => Raise ValueError
      end
  | _ => Raise ValueError
  end.

(** ** The error monad *)

Lemma bind_ok {A B : Type} (m : result A) (k : A -> result B) (b : B) :
  bind m k = Ok b -> exists a, m = Ok a /\ k a = Ok b.
Proof.
  destruct m as [a | e]; simpl; intros H; [eauto | discriminate].
Qed.

Ltac bind_inv H :=
  let a := fresh "x" in
  let Ha := fresh "E" in
  apply bind_ok in H; destruct H as (a & Ha & H); cbv beta zeta in H.

Lemma mapM_ok {A B : Type} (f : A -> result B) (l : list A) (l' : list B) :
  mapM f l = Ok l' -> Forall2 (fun x y => f x = Ok y) l l'.
Proof.
  revert l'; induction l as [| x l IH]; simpl; intros l' H.
  - injection H as <-. constructor.
  - bind_inv H. bind_inv H. injection H as <-. constructor; auto.
Qed.

Lemma mapM_of_Forall2 {A B : Type} (f : A -> result B) (l : list A) (l' : list B) :
  Forall2 (fun x y => f x = Ok y) l l' -> mapM f l = Ok l'.
Proof.
  induction 1 as [| x y l l' Hxy _ IH]; simpl; [reflexivity |].
  rewrite Hxy; simpl. rewrite IH; reflexivity.
Qed.

(** ** The stable descending sort *)

Section SortFacts.
Context {A K : Type} (ltb : K -> K -> bool).
Hypothesis ltb_asym : forall a b, ltb a b = true -> ltb b a = false.
Hypothesis ltb_negtrans :
  forall a b c, ltb a b = false -> ltb b c = false -> ltb a c = false.

Lemma insert_desc_perm (x : K * A) (l : list (K * A)) :
  Permutation (x :: l) (insert_desc ltb x l).
Proof.
  induction l as [| y l IH]; simpl; [reflexivity |].
  destruct (ltb (fst x) (fst y)); [| reflexivity].
  rewrite perm_swap. constructor. exact IH.
Qed.

Lemma sort_desc_perm (l : list (K * A)) : Permutation l (sort_desc ltb l).
Proof.
  induction l as [| x l IH]; simpl; [constructor |].
  rewrite <- insert_desc_perm. constructor. exact IH.
Qed.

Lemma insert_desc_sorted (x : K * A) (l : list (K * A)) :
  desc ltb l -> desc ltb (insert_desc ltb x l).
Proof.
  unfold desc. induction l as [| y l IH]; simpl; intros Hs.
  - constructor; constructor.
  - inversion Hs as [| ? ? Hl Hy]; subst.
    destruct (ltb (fst x) (fst y)) eqn:Hxy.
    + constructor; [auto |].
      rewrite <- insert_desc_perm. constructor; [apply ltb_asym; exact Hxy | exact Hy].
    + constructor; [exact Hs |]. constructor; [exact Hxy |].
      rewrite Forall_forall in *. intros z Hz. eapply ltb_negtrans; eauto.
Qed.

Lemma sort_desc_sorted (l : list (K * A)) : desc ltb (sort_desc ltb l).
Proof.
  induction l as [| x l IH]; simpl; [constructor | apply insert_desc_sorted; exact IH].
Qed.

(** The head of the sorted list is the first of the greatest elements. *)
Lemma sort_desc_head (l : list (K * A)) (x : K * A) (rest : list (K * A)) :
  sort_desc ltb l = x :: rest ->
  exists pre post,
    l = (pre ++ x :: post)%list
    /\ Forall (fun y => ltb (fst y) (fst x) = true) pre
    /\ Forall (fun y => ltb (fst x) (fst y) = false) post.
Proof.
  revert x rest; induction l as [| a l IH]; simpl; intros x rest H; [discriminate |].
  destruct (sort_desc ltb l) as [| b s] eqn:Hs.
  - simpl in H. injection H as <- <-.
    assert (l = []) as ->.
    { apply Permutation_nil. rewrite (sort_desc_perm l), Hs. reflexivity. }
    exists [], []. repeat split; constructor.
  - destruct (IH b s eq_refl) as (pre & post & -> & Hpre & Hpost).
    simpl in H. destruct (ltb (fst a) (fst b)) eqn:Hab; injection H as <- <-.
    + exists (a :: pre), post. repeat split; [constructor; assumption | assumption].
    + exists [], (pre ++ b :: post)%list. repeat split; [constructor |].
      apply Forall_app; split.
      * rewrite Forall_forall in *. intros y Hy.
        eapply ltb_negtrans; [exact Hab | apply ltb_asym, Hpre, Hy].
      * constructor; [exact Hab |].
        rewrite Forall_forall in *. intros y Hy. eapply ltb_negtrans; eauto.
Qed.

End SortFacts.

(** ** Buckets *)

Lemma key_eqb_spec (a b : key) : key_eqb a b = true <-> a = b.
Proof.
  destruct a as [a1 a2], b as [b1 b2]; unfold key_eqb; simpl.
  rewrite andb_true_iff, !String.eqb_eq. split.
  - intros [-> ->]; reflexivity.
  - intros H; injection H; auto.
Qed.

Lemma key_eqb_refl (a : key) : key_eqb a a = true.
Proof. apply key_eqb_spec; reflexivity. Qed.

Lemma key_eqb_sym (a b : key) : key_eqb a b = key_eqb b a.
Proof.
  destruct (key_eqb a b) eqn:E1, (key_eqb b a) eqn:E2; try reflexivity.
  - apply key_eqb_spec in E1; subst. rewrite key_eqb_refl in E2; discriminate.
  - apply key_eqb_spec in E2; subst. rewrite key_eqb_refl in E1; discriminate.
Qed.

Lemma bucket_get_setdefault (k k' : key) (w : value) (b : list (key * list value)) :
  bucket_get k (setdefault_append k' w b)
  = if key_eqb k k' then (bucket_get k b ++ [w])%list else bucket_get k b.
Proof.
  induction b as [| [k0 g] b IH]; simpl.
  - destruct (key_eqb k k'); reflexivity.
  - destruct (key_eqb k' k0) eqn:E0; simpl.
    + apply key_eqb_spec in E0; subst k0.
      destruct (key_eqb k k'); reflexivity.
    + destruct (key_eqb k k0) eqn:E1; [| exact IH].
      apply key_eqb_spec in E1; subst k0.
      rewrite key_eqb_sym, E0. reflexivity.
Qed.

Lemma keys_setdefault (k : key) (w : value) (b : list (key * list value)) :
  map fst (setdefault_append k w b)
  = if existsb (key_eqb k) (map fst b) then map fst b else (map fst b ++ [k])%list.
Proof.
  induction b as [| [k0 g] b IH]; simpl; [reflexivity |].
  destruct (key_eqb k k0); simpl; [reflexivity |].
  rewrite IH. destruct (existsb (key_eqb k) (map fst b)); reflexivity.
Qed.

Lemma existsb_key_In (k : key) (ks : list key) :
  existsb (key_eqb k) ks = true <-> In k ks.
Proof.
  rewrite existsb_exists. split.
  - intros (x & Hx & E). apply key_eqb_spec in E; subst; exact Hx.
  - intros H. exists k. split; [exact H | apply key_eqb_refl].
Qed.

Lemma keys_setdefault_NoDup (k : key) (w : value) (b : list (key * list value)) :
  NoDup (map fst b) -> NoDup (map fst (setdefault_append k w b)).
Proof.
  intros Hb. rewrite keys_setdefault.
  destruct (existsb (key_eqb k) (map fst b)) eqn:E; [exact Hb |].
  apply NoDup_app; [exact Hb | repeat constructor; intros [] | ].
  intros x Hx [<- | []].
  apply existsb_key_In in Hx. congruence.
Qed.

Lemma keys_setdefault_incl (k : key) (w : value) (b : list (key * list value)) :
  incl (map fst (setdefault_append k w b)) (k :: map fst b).
Proof.
  rewrite keys_setdefault.
  destruct (existsb (key_eqb k) (map fst b)); intros x Hx.
  - right; exact Hx.
  - apply in_app_or in Hx. destruct Hx as [Hx | [<- | []]]; [right; exact Hx | left; reflexivity].
Qed.

Lemma group_all_NoDup (kws : list (key * value)) (b : list (key * list value)) :
  NoDup (map fst b) -> NoDup (map fst (group_all kws b)).
Proof.
  revert b; induction kws as [| kw kws IH]; simpl; intros b Hb; [exact Hb |].
  apply IH, keys_setdefault_NoDup, Hb.
Qed.

Lemma group_all_keys_incl (kws : list (key * value)) (b : list (key * list value)) :
  incl (map fst (group_all kws b)) (map fst b ++ map fst kws)%list.
Proof.
  revert b; induction kws as [| kw kws IH]; simpl; intros b x Hx.
  - rewrite app_nil_r; exact Hx.
  - apply IH in Hx. apply in_app_or in Hx. destruct Hx as [Hx | Hx].
    + apply keys_setdefault_incl in Hx. destruct Hx as [<- | Hx].
      * apply in_or_app; right; left; reflexivity.
      * apply in_or_app; left; exact Hx.
    + apply in_or_app; right; right; exact Hx.
Qed.

Lemma bucket_get_group_all (k : key) (kws : list (key * value))
  (b : list (key * list value)) :
  bucket_get k (group_all kws b)
  = (bucket_get k b ++ map snd (filter (fun kw => key_eqb k (fst kw)) kws))%list.
Proof.
  revert b; induction kws as [| kw kws IH]; simpl; intros b.
  - rewrite app_nil_r; reflexivity.
  - rewrite IH, bucket_get_setdefault.
    destruct (key_eqb k (fst kw)); simpl; [rewrite <- app_assoc |]; reflexivity.
Qed.

Lemma bucket_get_In (k : key) (g : list value) (b : list (key * list value)) :
  NoDup (map fst b) -> In (k, g) b -> bucket_get k b = g.
Proof.
  induction b as [| [k0 g0] b IH]; simpl; intros Hnd Hin; [contradiction |].
  inversion Hnd as [| ? ? Hk0 Hnd']; subst.
  destruct Hin as [E | Hin].
  - injection E as -> ->. rewrite key_eqb_refl; reflexivity.
  - destruct (key_eqb k k0) eqn:E; [| auto].
    apply key_eqb_spec in E; subst k0.
    exfalso; apply Hk0. apply (in_map fst) in Hin; exact Hin.
Qed.

Lemma group_all_singletons (kws : list (key * value)) (b : list (key * list value)) :
  NoDup (map fst b ++ map fst kws) ->
  group_all kws b = (b ++ map (fun kw => (fst kw, [snd kw])) kws)%list.
Proof.
  revert b; induction kws as [| [k w] kws IH]; simpl; intros b Hnd.
  - rewrite app_nil_r; reflexivity.
  - assert (Hk : ~ In k (map fst b)).
    { intros Hin. apply NoDup_remove_2 in Hnd. apply Hnd, in_or_app; left; exact Hin. }
    assert (Hset : setdefault_append k w b = (b ++ [(k, [w])])%list).
    { clear - Hk. induction b as [| [k0 g0] b IHb]; simpl; [reflexivity |].
      destruct (key_eqb k k0) eqn:E.
      - apply key_eqb_spec in E; subst. exfalso; apply Hk; left; reflexivity.
      - rewrite IHb; [reflexivity |]. intros Hin; apply Hk; right; exact Hin. }
    rewrite Hset, IH.
    + rewrite <- app_assoc; reflexivity.
    + rewrite map_app; simpl. rewrite <- app_assoc; simpl.
      apply NoDup_Add with (a := k) (l := (map fst b ++ map fst kws)%list).
      * apply Add_app.
      * apply NoDup_remove in Hnd. destruct Hnd as [Hnd Hnot]. split; assumption.
Qed.

(** ** Ranking tuples *)

Lemma score_ltb_spec (a b : score_t) : score_ltb a b = true <-> score_lt a b.
Proof.
  destruct a as [[a1 a2] a3], b as [[b1 b2] b3]; unfold score_ltb, score_lt.
  rewrite !orb_true_iff, !andb_true_iff, !orb_true_iff, !andb_true_iff,
    !Z.ltb_lt, !Z.eqb_eq.
  reflexivity.
Qed.

Lemma score_ltb_false (a b : score_t) : score_ltb a b = false <-> score_le b a.
Proof.
  rewrite <- not_true_iff_false, score_ltb_spec.
  destruct a as [[a1 a2] a3], b as [[b1 b2] b3]; unfold score_le, score_lt.
  split.
  - intros H.
    destruct (Z.eq_dec a1 b1), (Z.eq_dec a2 b2), (Z.eq_dec a3 b3); subst;
      try (right; reflexivity); left; lia.
  - intros [H | H]; [lia | injection H; lia].
Qed.

Lemma score_ltb_asym (a b : score_t) : score_ltb a b = true -> score_ltb b a = false.
Proof.
  rewrite score_ltb_spec, score_ltb_false. intros H; left; exact H.
Qed.

Lemma score_ltb_negtrans (a b c : score_t) :
  score_ltb a b = false -> score_ltb b c = false -> score_ltb a c = false.
Proof.
  rewrite !score_ltb_false.
  destruct a as [[a1 a2] a3], b as [[b1 b2] b3], c as [[c1 c2] c3].
  unfold score_le, score_lt.
  intros [H1 | H1] [H2 | H2];
    try (injection H1 as -> -> ->); try (injection H2 as -> -> ->);
    try (right; reflexivity); left; lia.
Qed.

Lemma pair_ltb_asym (a b : Z * Z) : pair_ltb a b = true -> pair_ltb b a = false.
Proof.
  unfold pair_ltb. intros H.
  apply orb_true_iff in H.
  apply orb_false_iff; rewrite andb_false_iff, !Z.ltb_ge, Z.eqb_neq.
  destruct H as [H | H]; [apply Z.ltb_lt in H | apply andb_true_iff in H;
    destruct H as [H1 H2]; apply Z.eqb_eq in H1; apply Z.ltb_lt in H2]; lia.
Qed.

Lemma pair_ltb_negtrans (a b c : Z * Z) :
  pair_ltb a b = false -> pair_ltb b c = false -> pair_ltb a c = false.
Proof.
  unfold pair_ltb. intros H1 H2.
  apply orb_false_iff in H1, H2. destruct H1 as [H1 H1'], H2 as [H2 H2'].
  apply Z.ltb_ge in H1, H2.
  apply orb_false_iff; split; [apply Z.ltb_ge; lia |].
  apply andb_false_iff.
  destruct (Z.eq_dec (fst a) (fst c)) as [E | E]; [right | left; apply Z.eqb_neq; exact E].
  assert (Eb : fst a = fst b) by lia.
  apply andb_false_iff in H1', H2'.
  destruct H1' as [H1' | H1']; [apply Z.eqb_neq in H1'; lia |].
  destruct H2' as [H2' | H2']; [apply Z.eqb_neq in H2'; lia |].
  apply Z.ltb_ge in H1', H2'. apply Z.ltb_ge; lia.
Qed.

(** ** Deduplication *)

Section DedupeFacts.
Context {L : Builtins}.

Lemma fill_buckets_group (ws : list value) (b b' : list (key * list value)) :
  fill_buckets ws b = Ok b' ->
  exists ks, Forall2 (fun w k => dedupe_key w = Ok k) ws ks
             /\ b' = group_all (combine ks ws) b.
Proof.
  revert b; induction ws as [| w ws IH]; simpl; intros b H.
  - injection H as <-. exists []. split; [constructor | reflexivity].
  - bind_inv H. destruct (IH _ H) as (ks & Hks & ->).
    exists (x :: ks). split; [constructor; assumption | reflexivity].
Qed.

Lemma fill_buckets_of_keys (ws : list value) (ks : list key)
  (b : list (key * list value)) :
  Forall2 (fun w k => dedupe_key w = Ok k) ws ks ->
  fill_buckets ws b = Ok (group_all (combine ks ws) b).
Proof.
  intros H; revert b; induction H as [| w k ws ks Hk _ IH]; simpl; intros b.
  - reflexivity.
  - rewrite Hk; simpl. apply IH.
Qed.

(** The members of a group are the records of that key, in input order. *)
Lemma filter_by_key (k : key) (ws : list value) (ks : list key) :
  Forall2 (fun w k => dedupe_key w = Ok k) ws ks ->
  map snd (filter (fun kw => key_eqb k (fst kw)) (combine ks ws)) = filter (has_key k) ws.
Proof.
  induction 1 as [| w k0 ws ks Hk _ IH]; simpl; [reflexivity |].
  assert (Hw : has_key k w = key_eqb k k0).
  { unfold has_key. rewrite Hk. apply key_eqb_sym. }
  rewrite Hw. destruct (key_eqb k k0); simpl; rewrite IH; reflexivity.
Qed.

Lemma group_members (ws : list value) (b : list (key * list value)) :
  fill_buckets ws [] = Ok b ->
  NoDup (map fst b)
  /\ Forall (fun kg => snd kg = filter (has_key (fst kg)) ws /\ snd kg <> []) b.
Proof.
  intros H. destruct (fill_buckets_group _ _ _ H) as (ks & Hks & ->).
  assert (Hnd : NoDup (map fst (group_all (combine ks ws) []))).
  { apply group_all_NoDup; constructor. }
  split; [exact Hnd |].
  apply Forall_forall. intros [k g] Hin; simpl.
  assert (Hg : g = filter (has_key k) ws).
  { rewrite <- (bucket_get_In k g _ Hnd Hin), bucket_get_group_all; simpl.
    apply filter_by_key; exact Hks. }
  split; [exact Hg |].
  assert (Hk : In k (map fst (combine ks ws))).
  { apply (in_map fst) in Hin. apply group_all_keys_incl in Hin. exact Hin. }
  apply in_map_iff in Hk. destruct Hk as ([k' w] & Ek & Hkw); simpl in Ek; subst k'.
  assert (Hw : In w (filter (has_key k) ws)).
  { apply filter_In. split; [eapply in_combine_r; exact Hkw |].
    clear - Hks Hkw. induction Hks as [| w0 k0 ws ks Hk0 _ IH]; simpl in Hkw; [contradiction |].
    destruct Hkw as [E | Hkw]; [| auto].
    injection E as -> ->. unfold has_key. rewrite Hk0. apply key_eqb_refl. }
  rewrite Hg. intros E; rewrite E in Hw; exact Hw.
Qed.

Lemma has_key_key (k : key) (w : value) : has_key k w = true -> dedupe_key w = Ok k.
Proof.
  unfold has_key. destruct (dedupe_key w) as [k' | e]; [| discriminate].
  intros E; apply key_eqb_spec in E; subst; reflexivity.
Qed.

Lemma combine_Forall2 {A B : Type} (R : A -> B -> Prop) (l : list A) (l' : list B) :
  Forall2 R l l' ->
  Forall (fun p => R (snd p) (fst p)) (combine l' l)
  /\ map snd (combine l' l) = l /\ map fst (combine l' l) = l'.
Proof.
  induction 1 as [| x y l l' Hxy _ (IH1 & IH2 & IH3)]; simpl.
  - repeat split; constructor.
  - repeat split; [constructor; assumption | f_equal; assumption | f_equal; assumption].
Qed.

Lemma pick_winner_first_maximum (g : list value) (w : value) :
  pick_winner g = Ok w -> (1 < List.length g)%nat -> first_maximum g w.
Proof.
  intros H Hlen.
  assert (H' : (keys <- mapM score g ;;
                match sort_desc score_ltb (combine keys g) with
                | (_, winner) :: _ => Ok winner
                | [] => Raise IndexError
                end) = Ok w).
  { destruct g as [| a [| b g]]; simpl in Hlen; try lia; exact H. }
  clear H. bind_inv H'. rename x into keys.
  apply mapM_ok in E.
  destruct (combine_Forall2 _ _ _ E) as (Hsc & Hsnd & _).
  destruct (sort_desc score_ltb (combine keys g)) as [| [s w'] rest] eqn:Hs; [discriminate |].
  injection H' as ->.
  destruct (sort_desc_head score_ltb score_ltb_asym score_ltb_negtrans _ _ _ Hs)
    as (pre & post & Hg & Hpre & Hpost).
  rewrite Hg in Hsc, Hsnd.
  apply Forall_app in Hsc. destruct Hsc as [Hsc1 Hsc2].
  apply Forall_cons_iff in Hsc2. destruct Hsc2 as [Hw Hsc3]. simpl in Hw.
  exists (map snd pre), (map snd post), s.
  split; [rewrite <- Hsnd, map_app; reflexivity |].
  split; [exact Hw |].
  split; apply Forall_map, Forall_forall; intros [sx x] Hx; simpl.
  - exists sx. rewrite Forall_forall in Hsc1, Hpre.
    split; [exact (Hsc1 _ Hx) | apply score_ltb_spec; exact (Hpre _ Hx)].
  - exists sx. rewrite Forall_forall in Hsc3, Hpost.
    split; [exact (Hsc3 _ Hx) | apply score_ltb_false; exact (Hpost _ Hx)].
Qed.

Lemma pick_winner_In (g : list value) (w : value) : pick_winner g = Ok w -> In w g.
Proof.
  intros H. destruct g as [| a [| b g]].
  - simpl in H. discriminate.
  - simpl in H. injection H as <-. left; reflexivity.
  - destruct (pick_winner_first_maximum _ _ H) as (pre & post & s & -> & _).
    + simpl; lia.
    + apply in_or_app; right; left; reflexivity.
Qed.

(** The buckets behind an output of [dedupe_works], one winner each. *)
Lemma dedupe_winners (ws out : list value) :
  dedupe_works ws = Ok out ->
  exists b,
    fill_buckets ws [] = Ok b
    /\ NoDup (map fst b)
    /\ Forall2 (fun kg w => snd kg = filter (has_key (fst kg)) ws
                            /\ pick_winner (snd kg) = Ok w
                            /\ In w (snd kg)) b out.
Proof.
  unfold dedupe_works. intros H. bind_inv H. rename x into b.
  destruct (group_members _ _ E) as (Hnd & Hgroups).
  exists b. split; [exact E |]. split; [exact Hnd |].
  apply mapM_ok in H. clear E Hnd.
  induction H as [| kg w b out Hw _ IH]; [constructor |].
  inversion Hgroups as [| ? ? [Hg _] Hrest]; subst.
  constructor; [| apply IH; exact Hrest].
  split; [exact Hg |]. split; [exact Hw | apply pick_winner_In; exact Hw].
Qed.

Lemma winners_keys (ws : list value) (b : list (key * list value)) (out : list value) :
  Forall2 (fun kg w => snd kg = filter (has_key (fst kg)) ws
                       /\ pick_winner (snd kg) = Ok w
                       /\ In w (snd kg)) b out ->
  Forall2 (fun w k => dedupe_key w = Ok k) out (map fst b) /\ incl out ws.
Proof.
  induction 1 as [| kg w b out (Hg & _ & Hin) _ (IH1 & IH2)]; simpl.
  - split; [constructor | intros x []].
  - rewrite Hg in Hin. apply filter_In in Hin. destruct Hin as [Hin Hk].
    split; [constructor; [apply has_key_key; exact Hk | exact IH1] |].
    intros x [<- | Hx]; [exact Hin | apply IH2; exact Hx].
Qed.

Lemma dedupe_works_again (ws out : list value) :
  dedupe_works ws = Ok out ->
  exists b',
    fill_buckets out [] = Ok b'
    /\ Forall (fun kg => List.length (snd kg) = 1%nat) b'
    /\ dedupe_works out = Ok out.
Proof.
  intros H. destruct (dedupe_winners _ _ H) as (b & Hb & Hnd & Hw).
  destruct (winners_keys _ _ _ Hw) as (Hks & _).
  destruct (combine_Forall2 _ _ _ Hks) as (_ & Hsnd & Hfst).
  assert (Hfill : fill_buckets out []
                  = Ok (map (fun kw => (fst kw, [snd kw])) (combine (map fst b) out))).
  { rewrite (fill_buckets_of_keys _ _ [] Hks), group_all_singletons; [reflexivity |].
    simpl. rewrite Hfst. exact Hnd. }
  eexists. split; [exact Hfill |]. split.
  - apply Forall_map, Forall_forall. intros kw _; reflexivity.
  - unfold dedupe_works. rewrite Hfill; simpl.
    rewrite <- Hsnd at 2.
    generalize (combine (map fst b) out). intros l.
    induction l as [| [k w] l IH]; simpl; [reflexivity |].
    rewrite IH; reflexivity.
Qed.

End DedupeFacts.

Lemma keyed_NoDup {L : Builtins} (out : list value) (ks : list key) :
  Forall2 (fun w k => dedupe_key w = Ok k) out ks -> NoDup ks -> NoDup out.
Proof.
  induction 1 as [| w k out ks Hk Hrest IH]; intros Hnd; [constructor |].
  inversion Hnd as [| ? ? Hnot Hnd']; subst.
  constructor; [| apply IH; exact Hnd'].
  intros Hin. apply Hnot. clear - Hk Hrest Hin.
  induction Hrest as [| w' k' out ks Hk' _ IH]; [contradiction |].
  destruct Hin as [-> | Hin]; [left; congruence | right; apply IH; exact Hin].
Qed.

(** C1. Within every bucket of more than one record the record kept by
    [dedupe_works] is the first one, in input order, whose ranking tuple
    (has a DOI, citation count, not a repository) is the greatest in the
    lexicographic order; the members of a bucket are the input records of
    its key in input order.  For a repository copy cited 10 times and the
    journal version cited 4 times under one DOI, the repository copy is
    kept, whichever comes first. *)
Theorem winner_is_first_maximum :
  (forall (L : Builtins) (ws out : list value),
      dedupe_works ws = Ok out ->
      exists b,
        fill_buckets ws [] = Ok b
        /\ Forall2 (fun kg w =>
                      snd kg = filter (has_key (fst kg)) ws
                      /\ ((1 < List.length (snd kg))%nat -> first_maximum (snd kg) w))
                   b out)
  /\ @dedupe_works AsciiText.builtins [journal_version; repository_copy]
     = Ok [repository_copy]
  /\ @dedupe_works AsciiText.builtins [repository_copy; journal_version]
     = Ok [repository_copy]
  /\ @score AsciiText.builtins repository_copy = Ok (1, 10, 0)
  /\ @score AsciiText.builtins journal_version = Ok (1, 4, 1).
Proof.
  split; [| repeat split; vm_compute; reflexivity].
  intros L ws out H.
  destruct (dedupe_winners _ _ H) as (b & Hb & _ & Hw).
  exists b. split; [exact Hb |].
  clear H Hb.
  induction Hw as [| kg w b' out' (Hg & Hp & _) _ IH]; constructor; [| exact IH].
  split; [exact Hg |]. intros Hlen. apply pick_winner_first_maximum; assumption.
Qed.

(** C3. Running [dedupe_works] on its own output changes nothing, order
    included, and every bucket of the second run holds one record. *)
Theorem dedupe_works_idempotent (L : Builtins) (ws : list value) :
  (out <- dedupe_works ws ;; dedupe_works out) = dedupe_works ws
  /\ (forall out, dedupe_works ws = Ok out ->
        exists b, fill_buckets out [] = Ok b
                  /\ Forall (fun kg => List.length (snd kg) = 1%nat) b).
Proof.
  split.
  - destruct (dedupe_works ws) as [out | e] eqn:H; simpl; [| reflexivity].
    destruct (dedupe_works_again _ _ H) as (_ & _ & _ & Hagain). exact Hagain.
  - intros out H. destruct (dedupe_works_again _ _ H) as (b & Hb & Hone & _).
    exists b. split; assumption.
Qed.

(** C10. Every record returned by [dedupe_works] is one of the input records
    as it stands, no two returned records derive the same identity key, and
    the output is not longer than the input. *)
Theorem dedupe_works_sound (L : Builtins) (ws out : list value) :
  dedupe_works ws = Ok out ->
  incl out ws
  /\ (exists ks, Forall2 (fun w k => dedupe_key w = Ok k) out ks /\ NoDup ks)
  /\ (List.length out <= List.length ws)%nat.
Proof.
  intros H. destruct (dedupe_winners _ _ H) as (b & _ & Hnd & Hw).
  destruct (winners_keys _ _ _ Hw) as (Hks & Hincl).
  split; [exact Hincl |]. split; [exists (map fst b); split; assumption |].
  apply NoDup_incl_length; [eapply keyed_NoDup; eassumption | exact Hincl].
Qed.

(** ** Aggregation *)

Lemma int_or_zero_some (z : Z) : int_or_zero (Some z) = z.
Proof. unfold int_or_zero. destruct (Z.eqb_spec z 0); congruence. Qed.

Lemma sum_citations_sum (ps : list paper) : sum_citations ps = sum_Z (map p_citations ps).
Proof.
  unfold sum_citations.
  assert (H : forall acc, fold_left (fun a p => a + int_or_zero (Some (p_citations p))) ps acc
                          = acc + sum_Z (map p_citations ps)).
  { induction ps as [| p ps IH]; intros acc; cbn [fold_left map sum_Z fold_right]; [lia |].
    rewrite IH, int_or_zero_some. unfold sum_Z. lia. }
  rewrite H. lia.
Qed.

Lemma by_year_get_add (y y' n : Z) (d : list (Z * Z)) :
  by_year_get y (by_year_add y' n d)
  = if y =? y' then by_year_get y d + n else by_year_get y d.
Proof.
  induction d as [| [y0 m] d IH]; simpl.
  - destruct (y =? y'); reflexivity.
  - destruct (Z.eqb_spec y' y0) as [-> | Hne]; simpl.
    + destruct (Z.eqb_spec y y0); reflexivity.
    + destruct (Z.eqb_spec y y0) as [-> | Hne']; [| exact IH].
      destruct (Z.eqb_spec y0 y'); [congruence | reflexivity].
Qed.

Lemma by_year_add_keys (y n x : Z) (d : list (Z * Z)) :
  In x (map fst (by_year_add y n d)) <-> x = y \/ In x (map fst d).
Proof.
  induction d as [| [y0 m] d IH]; simpl.
  - intuition.
  - destruct (Z.eqb_spec y y0) as [-> | Hne]; simpl; [intuition |].
    rewrite IH. intuition.
Qed.

Lemma by_year_add_NoDup (y n : Z) (d : list (Z * Z)) :
  NoDup (map fst d) -> NoDup (map fst (by_year_add y n d)).
Proof.
  induction d as [| [y0 m] d IH]; simpl; intros Hnd.
  - repeat constructor. intros [].
  - inversion Hnd as [| ? ? Hnot Hnd']; subst.
    destruct (Z.eqb_spec y y0) as [-> | Hne]; simpl; [exact Hnd |].
    constructor; [| apply IH; exact Hnd'].
    rewrite by_year_add_keys. intros [E | Hin]; [congruence | contradiction].
Qed.

Lemma by_year_loop_get (y : Z) (ps : list paper) (d : list (Z * Z)) :
  by_year_get y (by_year_loop ps d) = by_year_get y d + year_sum y ps.
Proof.
  revert d; induction ps as [| p ps IH]; intros d.
  - unfold year_sum; simpl. lia.
  - unfold year_sum, published_in in *; cbn [filter by_year_loop].
    destruct (p_year p) as [y' |]; rewrite IH.
    + rewrite by_year_get_add, int_or_zero_some, (Z.eqb_sym y' y).
      destruct (y =? y'); simpl; lia.
    + reflexivity.
Qed.

Lemma by_year_loop_keys (y : Z) (ps : list paper) (d : list (Z * Z)) :
  In y (map fst (by_year_loop ps d))
  <-> In y (map fst d) \/ exists p, In p ps /\ p_year p = Some y.
Proof.
  revert d; induction ps as [| p ps IH]; intros d; simpl.
  - split; [auto | intros [H | (p & [] & _)]; exact H].
  - destruct (p_year p) as [y' |] eqn:Hy; rewrite IH; [rewrite by_year_add_keys |];
      split.
    + intros [[-> | H] | (q & Hq & Hqy)]; [right; exists p; auto | auto |].
      right; exists q; auto.
    + intros [H | (q & [<- | Hq] & Hqy)]; [auto | left; left; congruence |].
      right; exists q; auto.
    + intros [H | (q & Hq & Hqy)]; [auto | right; exists q; auto].
    + intros [H | (q & [<- | Hq] & Hqy)]; [auto | congruence | right; exists q; auto].
Qed.

Lemma by_year_loop_NoDup (ps : list paper) (d : list (Z * Z)) :
  NoDup (map fst d) -> NoDup (map fst (by_year_loop ps d)).
Proof.
  revert d; induction ps as [| p ps IH]; intros d Hnd; simpl; [exact Hnd |].
  destruct (p_year p); apply IH; [apply by_year_add_NoDup |]; exact Hnd.
Qed.

Lemma insert_asc_In (x z : Z) (l : list Z) : In z (insert_asc x l) <-> z = x \/ In z l.
Proof.
  induction l as [| y l IH]; simpl; [intuition |].
  destruct (x <=? y); simpl; [intuition | rewrite IH; intuition].
Qed.

Lemma sorted_asc_In (z : Z) (l : list Z) : In z (sorted_asc l) <-> In z l.
Proof.
  induction l as [| x l IH]; simpl; [reflexivity |].
  rewrite insert_asc_In, IH. intuition.
Qed.

Lemma insert_asc_sorted (x : Z) (l : list Z) :
  ~ In x l -> StronglySorted Z.lt l -> StronglySorted Z.lt (insert_asc x l).
Proof.
  induction l as [| y l IH]; simpl; intros Hnot Hs.
  - repeat constructor.
  - inversion Hs as [| ? ? Hl Hy]; subst.
    destruct (Z.leb_spec x y) as [Hle | Hgt].
    + assert (x < y) by (assert (x <> y) by (intros ->; apply Hnot; left; reflexivity); lia).
      constructor; [exact Hs |]. constructor; [assumption |].
      rewrite Forall_forall in *. intros z Hz. specialize (Hy z Hz). lia.
    + constructor; [apply IH; tauto |].
      rewrite Forall_forall in *. intros z Hz.
      apply insert_asc_In in Hz. destruct Hz as [-> | Hz]; [lia | auto].
Qed.

Lemma sorted_asc_sorted (l : list Z) : NoDup l -> StronglySorted Z.lt (sorted_asc l).
Proof.
  induction 1 as [| x l Hnot _ IH]; simpl; [constructor |].
  apply insert_asc_sorted; [rewrite sorted_asc_In; exact Hnot | exact IH].
Qed.

(** ** The report *)

Lemma paper_sort_key_eq (p : paper) : paper_sort_key p = (year_or_zero p, p_citations p).
Proof.
  unfold paper_sort_key, year_or_zero. rewrite int_or_zero_some.
  destruct (p_year p) as [y |]; [rewrite int_or_zero_some |]; reflexivity.
Qed.

Lemma pair_ltb_false_order (p q : paper) :
  pair_ltb (paper_sort_key p) (paper_sort_key q) = false -> report_order p q.
Proof.
  rewrite !paper_sort_key_eq. unfold pair_ltb, report_order; simpl. intros H.
  apply orb_false_iff in H. destruct H as [H1 H2]. apply Z.ltb_ge in H1.
  apply andb_false_iff in H2.
  destruct H2 as [H2 | H2]; [apply Z.eqb_neq in H2 | apply Z.ltb_ge in H2]; lia.
Qed.

Lemma sort_papers_perm (ps : list paper) : Permutation ps (sort_papers ps).
Proof.
  unfold sort_papers.
  rewrite <- (sort_desc_perm pair_ltb), map_map; simpl. rewrite map_id. reflexivity.
Qed.

Lemma sort_papers_sorted (ps : list paper) : StronglySorted report_order (sort_papers ps).
Proof.
  unfold sort_papers.
  set (dec := map (fun p => (paper_sort_key p, p)) ps).
  assert (Hkeys : Forall (fun kp => fst kp = paper_sort_key (snd kp)) (sort_desc pair_ltb dec)).
  { rewrite <- (sort_desc_perm pair_ltb dec). apply Forall_map, Forall_forall.
    intros p _; reflexivity. }
  pose proof (sort_desc_sorted pair_ltb pair_ltb_asym pair_ltb_negtrans dec) as Hs.
  unfold desc in Hs. revert Hkeys Hs.
  generalize (sort_desc pair_ltb dec). intros l Hkeys Hs.
  induction Hs as [| kp l Hl IH Hall]; simpl; [constructor |].
  apply Forall_cons_iff in Hkeys. destruct Hkeys as [Hk Hkeys].
  constructor; [apply IH; exact Hkeys |].
  apply Forall_map. rewrite Forall_forall in *. intros kq Hq.
  apply pair_ltb_false_order. rewrite <- Hk, <- (Hkeys kq Hq). apply Hall; exact Hq.
Qed.

Lemma main_ok {L : Builtins} (env : option string) (fetch : string -> result (list value))
  (now : string) (r : report) :
  main env fetch now = Ok r ->
  exists a ws ds ps,
    normalize_author_id (Some (getenv env "A5042578790")) = Ok a
    /\ fetch a = Ok ws
    /\ dedupe_works ws = Ok ds
    /\ mapM (fun w => normalize_work w a) ds = Ok ps
    /\ r = {| updated_at := now;
              author_openalex_id := a;
              papers_tracked := Z.of_nat (List.length (sort_papers ps));
              total_citations := sum_citations (sort_papers ps);
              citations_by_year := build_citations_by_year (sort_papers ps);
              works := sort_papers ps |}.
Proof.
  unfold main. intros H.
  bind_inv H. bind_inv H. bind_inv H. bind_inv H. injection H as <-.
  eauto 10.
Qed.

(** C5. The total is the sum of the citation counts, and
    [build_citations_by_year] lists each year that some paper has exactly
    once, in ascending order, with the sum of the citations of the papers of
    that year; papers without a year are left out.  The report carries both
    aggregates of its list of works.  Years 2020, 2020, 2021 with 5, 3, 7
    citations give [(2020, 8); (2021, 7)] and a total of 15. *)
Theorem aggregate_correct :
  (forall ps : list paper,
      sum_citations ps = sum_Z (map p_citations ps)
      /\ StronglySorted Z.lt (map fst (build_citations_by_year ps))
      /\ (forall y, In y (map fst (build_citations_by_year ps))
                    <-> exists p, In p ps /\ p_year p = Some y)
      /\ (forall y c, In (y, c) (build_citations_by_year ps) -> c = year_sum y ps))
  /\ (forall (L : Builtins) env fetch now r,
         main env fetch now = Ok r ->
         total_citations r = sum_Z (map p_citations (works r))
         /\ citations_by_year r = build_citations_by_year (works r))
  /\ (exists ps,
         mapM (fun w => @normalize_work AsciiText.builtins w "A1")
              [raw_work 2020 5; raw_work 2020 3; raw_work 2021 7] = Ok ps
         /\ map p_year ps = [Some 2020; Some 2020; Some 2021]
         /\ map p_citations ps = [5; 3; 7]
         /\ build_citations_by_year ps = [(2020, 8); (2021, 7)]
         /\ sum_citations ps = 15).
Proof.
  split; [| split].
  - intros ps. unfold build_citations_by_year.
    set (d := by_year_loop ps []).
    assert (Hnd : NoDup (map fst d)) by (apply by_year_loop_NoDup; constructor).
    rewrite map_map; simpl. rewrite map_id.
    split; [apply sum_citations_sum |].
    split; [apply sorted_asc_sorted; exact Hnd |].
    split.
    + intros y. rewrite sorted_asc_In. unfold d. rewrite by_year_loop_keys; simpl.
      split; [intros [[] | H]; exact H | auto].
    + intros y c Hin. apply in_map_iff in Hin. destruct Hin as (y' & E & _).
      injection E as -> <-. unfold d. rewrite by_year_loop_get; simpl. lia.
  - intros L env fetch now r H.
    destruct (main_ok _ _ _ _ H) as (a & ws & ds & ps & _ & _ & _ & _ & ->); simpl.
    split; [apply sum_citations_sum | reflexivity].
  - eexists. split; [vm_compute; reflexivity |]. repeat split.
Qed.

(** C7, as amended. The works of the report are the normalised winners
    sorted by year, highest first, a missing year counting as 0, and by
    citation count, highest first, within one year; so a work without a year
    comes after every work of a positive year and is followed only by works
    whose year is missing, zero or negative. *)
Theorem report_works_sorted (L : Builtins) (env : option string)
  (fetch : string -> result (list value)) (now : string) (r : report) :
  main env fetch now = Ok r ->
  (exists a ws ds ps,
      normalize_author_id (Some (getenv env "A5042578790")) = Ok a
      /\ fetch a = Ok ws
      /\ dedupe_works ws = Ok ds
      /\ mapM (fun w => normalize_work w a) ds = Ok ps
      /\ Permutation ps (works r))
  /\ StronglySorted report_order (works r)
  /\ (forall before p after,
         works r = (before ++ p :: after)%list ->
         p_year p = None ->
         Forall (fun q => year_or_zero q <= 0) after)
  /\ (forall before p after,
         works r = (before ++ p :: after)%list ->
         0 < year_or_zero p ->
         Forall (fun q => exists y, p_year q = Some y /\ 0 < y) before).
Proof.
  intros H.
  destruct (main_ok _ _ _ _ H) as (a & ws & ds & ps & Ha & Hws & Hds & Hps & ->); simpl.
  split; [exists a, ws, ds, ps; repeat split; try assumption; apply sort_papers_perm |].
  pose proof (sort_papers_sorted ps) as Hs.
  split; [exact Hs |]. split.
  - intros before p after E Hp. rewrite E in Hs. clear E.
    induction before as [| b before IH]; simpl in Hs; inversion Hs as [| ? ? Hl Hall]; subst.
    + rewrite Forall_forall in *. intros q Hq. specialize (Hall q Hq).
      unfold report_order, year_or_zero in Hall. rewrite Hp in Hall.
      unfold year_or_zero. destruct (p_year q); lia.
    + apply IH; exact Hl.
  - intros before p after E Hp. rewrite E in Hs. clear E.
    induction before as [| b before IH]; [constructor |].
    simpl in Hs. inversion Hs as [| ? ? Hl Hall]; subst.
    constructor; [| apply IH; exact Hl].
    rewrite Forall_forall in Hall.
    assert (Hb : report_order b p) by (apply Hall, in_or_app; right; left; reflexivity).
    unfold report_order in Hb. unfold year_or_zero in Hb at 2 4.
    destruct (p_year b) as [y |]; [exists y; split; [reflexivity | lia] | lia].
Qed.

(** ** Normalisation *)

Lemma nonempty_false (s : string) : nonempty s = false <-> s = "".
Proof.
  unfold nonempty. rewrite negb_false_iff. apply String.eqb_eq.
Qed.

Lemma nonempty_true (s : string) : nonempty s = true <-> s <> "".
Proof.
  unfold nonempty. rewrite negb_true_iff. apply String.eqb_neq.
Qed.

Lemma normalize_work_citations {L : Builtins} (w : value) (sid : string) (p : paper) :
  normalize_work w sid = Ok p ->
  exists c, py_get w "cited_by_count" = Ok c /\ p_citations p = int_or_zero (_safe_int c).
Proof.
  unfold normalize_work. intros H.
  repeat bind_inv H. injection H as <-. simpl.
  match goal with
  | Hc : py_get w "cited_by_count" = Ok ?c |- _ => exists c; split; [exact Hc | reflexivity]
  end.
Qed.

Lemma safe_int_cases {L : Builtins} (c : value) :
  int_or_zero (_safe_int c) = match py_int c with Ok z => z | Raise _ => 0 end.
Proof.
  unfold _safe_int. destruct (py_int c) as [z | e]; simpl; [| reflexivity].
  destruct (Z.eqb_spec z 0); congruence.
Qed.

(** C6, as amended. The citation count of a normalised work is
    [int(cited_by_count)] when that conversion succeeds and 0 when the field
    is missing, null or not convertible; it is negative exactly when the
    conversion gives a negative integer. *)
Theorem citations_coerced (L : Builtins) (w : value) (sid : string) (p : paper) :
  normalize_work w sid = Ok p ->
  exists c,
    py_get w "cited_by_count" = Ok c
    /\ (forall d, w = VDict d -> dict_get "cited_by_count" d = None -> c = VNone)
    /\ (c = VNone -> p_citations p = 0)
    /\ (forall e, py_int c = Raise e -> p_citations p = 0)
    /\ (forall z, py_int c = Ok z -> p_citations p = z)
    /\ (p_citations p < 0 <-> exists z, py_int c = Ok z /\ z < 0).
Proof.
  intros H. destruct (normalize_work_citations _ _ _ H) as (c & Hc & Hp).
  rewrite safe_int_cases in Hp.
  exists c. split; [exact Hc |]. split; [| split; [| split; [| split]]].
  - intros d -> Hd. simpl in Hc. rewrite Hd in Hc. injection Hc as <-. reflexivity.
  - intros ->. exact Hp.
  - intros e He. rewrite He in Hp. exact Hp.
  - intros z Hz. rewrite Hz in Hp. exact Hp.
  - destruct (py_int c) as [z | e]; rewrite Hp; split.
    + intros Hneg. exists z. split; [reflexivity | exact Hneg].
    + intros (z' & E & Hneg). injection E as ->. exact Hneg.
    + lia.
    + intros (z' & E & _). discriminate.
Qed.

(** C8. The empty record normalises to a work titled "Untitled" with no
    year, no citations, venue and type "—", URL "#" and every other field at
    its default. *)
Theorem normalize_work_empty (L : Builtins) (W : BuiltinLaws L) (sid : string) :
  normalize_work (VDict []) sid
  = Ok {| p_id := None;
          p_title := "Untitled";
          p_year := None;
          p_venue := "—";
          p_citations := 0;
          p_doi := None;
          p_url := "#";
          p_hal_url := None;
          p_type := "—";
          p_is_oa := false;
          p_oa_status := "unknown";
          p_fwci := None;
          p_citation_norm_percentile := VNone;
          p_topics := [];
          p_keywords := [];
          p_coauthors := [];
          p_source := "OpenAlex" |}.
Proof.
  unfold normalize_work. cbn. rewrite !strip_empty. cbn.
  unfold extract_topics, extract_keywords. cbn. rewrite !sorted_nil. reflexivity.
Qed.

(** ** The author identifier *)

Lemma cleaned_none {L : Builtins} (W : BuiltinLaws L) : cleaned_author_id None = "".
Proof.
  unfold cleaned_author_id. rewrite strip_empty. cbn. apply strip_empty.
Qed.

Lemma normalize_author_id_empty {L : Builtins} (W : BuiltinLaws L) (raw : option string) :
  cleaned_author_id raw = "" -> normalize_author_id raw = Raise ValueError.
Proof.
  unfold normalize_author_id, cleaned_author_id. intros ->.
  rewrite (proj2 (upper_empty "") eq_refl). reflexivity.
Qed.

Lemma normalize_author_id_nonempty {L : Builtins} (W : BuiltinLaws L)
  (raw : option string) :
  cleaned_author_id raw <> "" ->
  exists a, normalize_author_id raw = Ok a /\ a <> "".
Proof.
  unfold normalize_author_id, cleaned_author_id. intros H.
  set (c := str_upper _).
  assert (Hc : nonempty c = true).
  { apply nonempty_true. intros E. apply H. apply upper_empty. exact E. }
  rewrite Hc; simpl.
  destruct (startswith c "A") eqn:HA; simpl.
  - exists c. split; [reflexivity | apply nonempty_true; exact Hc].
  - eexists. split; [reflexivity | discriminate].
Qed.

(** C9, as amended. [normalize_author_id] raises ValueError when the
    identifier it is given is missing or is empty once trimmed and rid of
    the OpenAlex prefix, and returns a non-empty identifier otherwise.
    [main] never hands it a missing identifier: an unset variable is
    replaced by the default A5042578790, with which the run goes on.  When
    the variable is set to a text that is empty once cleaned, [main] raises
    before fetching anything, so that no report is produced; for every other
    text the run goes on to the fetch, and a report always carries a
    non-empty identifier. *)
Theorem author_id_required (L : Builtins) (W : BuiltinLaws L) :
  normalize_author_id None = Raise ValueError
  /\ (forall raw, cleaned_author_id raw = "" -> normalize_author_id raw = Raise ValueError)
  /\ (forall raw, cleaned_author_id raw <> "" ->
        exists a, normalize_author_id raw = Ok a /\ a <> "")
  /\ (forall env fetch now,
        cleaned_author_id (Some (getenv env "A5042578790")) = "" ->
        main env fetch now = Raise ValueError)
  /\ (forall env fetch now,
        cleaned_author_id (Some (getenv env "A5042578790")) <> "" ->
        exists a,
          normalize_author_id (Some (getenv env "A5042578790")) = Ok a
          /\ a <> ""
          /\ (forall e, fetch a = Raise e -> main env fetch now = Raise e)
          /\ (forall r, main env fetch now = Ok r -> author_openalex_id r = a))
  /\ (forall env fetch now r,
        main env fetch now = Ok r ->
        author_openalex_id r <> ""
        /\ cleaned_author_id (Some (getenv env "A5042578790")) <> "")
  /\ (forall fetch now, main None fetch now = main (Some "A5042578790") fetch now)
  /\ (forall fetch now r,
        main None fetch now = Ok r ->
        normalize_author_id (Some "A5042578790") = Ok (author_openalex_id r)).
Proof.
  split; [apply normalize_author_id_empty; [exact W | apply cleaned_none; exact W] |].
  split; [intros raw; apply normalize_author_id_empty; exact W |].
  split.
  { intros raw H. destruct (normalize_author_id_nonempty W raw H) as (a & Ha & Hne).
    exists a; split; assumption. }
  split.
  { intros env fetch now H. unfold main.
    rewrite (normalize_author_id_empty W _ H). reflexivity. }
  split.
  { intros env fetch now H.
    destruct (normalize_author_id_nonempty W _ H) as (a & Ha & Hne).
    exists a. split; [exact Ha |]. split; [exact Hne |]. split.
    - intros e He. unfold main. rewrite Ha; simpl. rewrite He. reflexivity.
    - intros r Hr. destruct (main_ok _ _ _ _ Hr) as (a' & ? & ? & ? & Ha' & _ & _ & _ & ->).
      simpl. congruence. }
  split.
  { intros env fetch now r Hr.
    destruct (main_ok _ _ _ _ Hr) as (a & ? & ? & ? & Ha & _ & _ & _ & ->); simpl.
    assert (Hc : cleaned_author_id (Some (getenv env "A5042578790")) <> "").
    { intros E. rewrite (normalize_author_id_empty W _ E) in Ha. discriminate. }
    split; [| exact Hc].
    destruct (normalize_author_id_nonempty W _ Hc) as (a' & Ha' & Hne).
    congruence. }
  split; [intros fetch now; reflexivity |].
  intros fetch now r Hr.
  destruct (main_ok _ _ _ _ Hr) as (a & ? & ? & ? & Ha & _ & _ & _ & ->); simpl.
  exact Ha.
Qed.

(** ** DOI keys *)

Lemma prefix_app (s t : string) : String.prefix s (s ++ t) = true.
Proof.
  induction s as [| c s IH]; simpl; [destruct t; reflexivity |].
  destruct (ascii_dec c c) as [_ | Hne]; [exact IH | contradiction].
Qed.

Lemma replace_from_skip (old new s t : string) :
  replace_from old new (String.length s) (s ++ t) = replace_from old new 0 t.
Proof.
  induction s as [| c s IH]; simpl; [reflexivity | exact IH].
Qed.

(** A leading occurrence of [old] is replaced, and the scan resumes after it. *)
Lemma str_replace_prefix (old new t : string) :
  old <> "" -> str_replace (old ++ t) old new = new ++ str_replace t old new.
Proof.
  unfold str_replace. destruct old as [| c old]; [congruence | intros _].
  change (String c old ++ t) with (String c (old ++ t)).
  cbn [replace_from].
  change (String c (old ++ t)) with (String c old ++ t).
  rewrite prefix_app. cbn [String.length Nat.pred].
  rewrite replace_from_skip. reflexivity.
Qed.

Lemma strip_doi_prefixes_https (t : string) :
  strip_doi_prefixes ("https://doi.org/" ++ t) = strip_doi_prefixes t.
Proof.
  unfold strip_doi_prefixes. rewrite str_replace_prefix by discriminate. reflexivity.
Qed.

Lemma strip_doi_prefixes_http (t : string) :
  strip_doi_prefixes ("http://doi.org/" ++ t) = strip_doi_prefixes t.
Proof.
  unfold strip_doi_prefixes.
  assert (E : str_replace ("http://doi.org/" ++ t) "https://doi.org/" ""
              = "http://doi.org/" ++ str_replace t "https://doi.org/" "").
  { unfold str_replace. cbn. reflexivity. }
  rewrite E, str_replace_prefix by discriminate. reflexivity.
Qed.

Lemma strip_doi_prefixes_doi (t : string) :
  strip_doi_prefixes ("doi:" ++ t) = strip_doi_prefixes t.
Proof.
  unfold strip_doi_prefixes.
  assert (E1 : str_replace ("doi:" ++ t) "https://doi.org/" ""
               = "doi:" ++ str_replace t "https://doi.org/" "").
  { unfold str_replace. cbn. reflexivity. }
  rewrite E1.
  assert (E2 : forall u, str_replace ("doi:" ++ u) "http://doi.org/" ""
                         = "doi:" ++ str_replace u "http://doi.org/" "").
  { intros u. unfold str_replace. cbn. reflexivity. }
  rewrite E2, str_replace_prefix by discriminate. reflexivity.
Qed.

Lemma norm_doi_eq {L : Builtins} (s : string) :
  s <> "" ->
  _norm_doi (Some s)
  = let d := strip_doi_prefixes (str_lower (str_strip s)) in
    if nonempty d then Some d else None.
Proof.
  intros H. unfold _norm_doi. rewrite (proj2 (nonempty_true s) H). reflexivity.
Qed.

Lemma norm_doi_some {L : Builtins} (o : option string) (d : string) :
  _norm_doi o = Some d -> d <> "".
Proof.
  unfold _norm_doi. destruct o as [s |]; [| discriminate].
  destruct (nonempty s); simpl; [| discriminate].
  destruct (nonempty _) eqn:E; [| discriminate].
  intros H; injection H as <-. apply nonempty_true; exact E.
Qed.

Lemma get_doi_some {L : Builtins} (w : value) (d : string) :
  _get_doi w = Ok (Some d) -> d <> "".
Proof.
  unfold _get_doi. intros H. bind_inv H.
  destruct x; try (bind_inv H; destruct (py_or _ _); try discriminate;
                   destruct (dict_get _ _) as [[] |]; try discriminate);
    injection H as H; eapply (norm_doi_some (Some _)); exact H.
Qed.

Lemma doi_key_get_doi {L : Builtins} (w : value) (d : string) :
  dedupe_key w = Ok ("doi", d) -> _get_doi w = Ok (Some d).
Proof.
  unfold dedupe_key. intros H. bind_inv H. destruct x as [d' |].
  - injection H as <-. exact E.
  - bind_inv H. destruct x as [h |]; [discriminate |].
    repeat bind_inv H. discriminate.
Qed.

(** C4, as amended. The DOI of a record is normalised in the order of
    [_norm_doi]: trim, lower-case, then remove https://doi.org/,
    http://doi.org/ and doi:, with no trimming after that.  Two records
    whose DOIs are the same non-empty text under that normalisation derive
    the same key [("doi", d)], and two records with a DOI derive the same key
    only then, whether the DOI is the top-level field or the one of the
    [ids] map, and whatever its letter case and whichever of the prefixes
    directly precedes it; white space between a prefix and the DOI is kept
    and gives another key.  A DOI that normalises to the empty text counts
    as absent, and the record is keyed by its HAL identifier or by the fuzzy
    key. *)
Theorem doi_key_stable :
  (forall (L : Builtins) (w1 w2 : value) (d : string),
      _get_doi w1 = Ok (Some d) -> _get_doi w2 = Ok (Some d) ->
      d <> "" /\ dedupe_key w1 = Ok ("doi", d) /\ dedupe_key w2 = Ok ("doi", d))
  /\ (forall (L : Builtins) (w1 w2 : value) (d1 d2 : string),
         _get_doi w1 = Ok (Some d1) -> _get_doi w2 = Ok (Some d2) ->
         (dedupe_key w1 = dedupe_key w2 <-> d1 = d2))
  /\ (forall (L : Builtins) (w : value) (d : string),
         dedupe_key w = Ok ("doi", d) -> _get_doi w = Ok (Some d))
  /\ (forall (L : Builtins) (w : value) (s : string),
         py_get w "doi" = Ok (VStr s) -> _get_doi w = Ok (_norm_doi (Some s)))
  /\ (forall (L : Builtins) (w v : value) (ids : list (string * value)) (s : string),
         py_get w "doi" = Ok v -> isinstance_str v = None ->
         py_get w "ids" = Ok (VDict ids) -> dict_get "doi" ids = Some (VStr s) ->
         _get_doi w = Ok (_norm_doi (Some s)))
  /\ (forall (L : Builtins) (s : string),
         s <> "" ->
         _norm_doi (Some s)
         = if nonempty (strip_doi_prefixes (str_lower (str_strip s)))
           then Some (strip_doi_prefixes (str_lower (str_strip s)))
           else None)
  /\ (forall (L : Builtins) (s1 s2 : string),
         s1 <> "" -> s2 <> "" ->
         str_lower (str_strip s1) = str_lower (str_strip s2)
         \/ str_lower (str_strip s1) = "https://doi.org/" ++ str_lower (str_strip s2)
         \/ str_lower (str_strip s1) = "http://doi.org/" ++ str_lower (str_strip s2)
         \/ str_lower (str_strip s1) = "doi:" ++ str_lower (str_strip s2) ->
         _norm_doi (Some s1) = _norm_doi (Some s2))
  /\ (forall (L : Builtins) (s : string),
         strip_doi_prefixes (str_lower (str_strip s)) = "" -> _norm_doi (Some s) = None)
  /\ (forall (L : Builtins) (w : value) (k : key),
         _get_doi w = Ok None -> dedupe_key w = Ok k -> fst k = "hal" \/ fst k = "fuzzy")
  /\ @dedupe_key AsciiText.builtins (VDict [("doi", VStr " HTTPS://doi.org/10.1/ABC ")])
     = Ok ("doi", "10.1/abc")
  /\ @dedupe_key AsciiText.builtins (VDict [("ids", VDict [("doi", VStr "doi:10.1/abc")])])
     = Ok ("doi", "10.1/abc")
  /\ @dedupe_key AsciiText.builtins (VDict [("doi", VStr "doi: 10.1/abc")])
     = Ok ("doi", " 10.1/abc")
  /\ @dedupe_key AsciiText.builtins
       (VDict [("doi", VStr "https://doi.org/"); ("ids", VDict [("doi", VStr "10.1/abc")])])
     = Ok ("fuzzy", "|None|").
Proof.
  split; [| split; [| split; [| split; [| split; [| split; [| split; [| split; [| split]]]]]]]].
  - intros L w1 w2 d H1 H2.
    split; [eapply get_doi_some; exact H1 |].
    unfold dedupe_key. rewrite H1, H2. split; reflexivity.
  - intros L w1 w2 d1 d2 H1 H2.
    unfold dedupe_key. rewrite H1, H2. cbn [bind]. split.
    + intros E. injection E as ->. reflexivity.
    + intros ->. reflexivity.
  - intros L w d. apply doi_key_get_doi.
  - intros L w s H. unfold _get_doi. rewrite H. reflexivity.
  - intros L w v ids s Hv Hns Hids Hs. unfold _get_doi. rewrite Hv; simpl.
    rewrite Hids; simpl.
    assert (Ht : py_or (VDict ids) (VDict []) = VDict ids).
    { destruct ids; [discriminate | reflexivity]. }
    rewrite Ht, Hs. destruct v; try reflexivity. discriminate.
  - intros L s Hs. apply norm_doi_eq. exact Hs.
  - intros L s1 s2 H1 H2 H.
    rewrite !norm_doi_eq by assumption. cbv zeta.
    destruct H as [-> | [-> | [-> | ->]]];
      rewrite ?strip_doi_prefixes_https, ?strip_doi_prefixes_http, ?strip_doi_prefixes_doi;
      reflexivity.
  - intros L s H. unfold _norm_doi.
    destruct (nonempty s); simpl; [| reflexivity].
    fold (strip_doi_prefixes (str_lower (str_strip s))). rewrite H. reflexivity.
  - intros L w k H Hk. unfold dedupe_key in Hk. rewrite H in Hk; simpl in Hk.
    bind_inv Hk. destruct x as [h |].
    + injection Hk as <-. left; reflexivity.
    + repeat bind_inv Hk. injection Hk as <-. right; reflexivity.
  - repeat split; vm_compute; reflexivity.
Qed.

(** ** Failures on malformed records *)

(** C2. The functions are not total.  [normalize_work] raises AttributeError
    on a record whose [topics] or [keywords] hold an entry that is not a
    map, and on one whose [authorships] hold a text; [dedupe_works] raises
    ValueError when two records share a key and one has a citation count
    that is not numeric, although [_safe_int] maps the same count to [None],
    and AttributeError on a record without DOI whose first authorship is
    null; [main] then raises as well. *)
Theorem malformed_records_raise :
  (forall (L : Builtins) (sid : string),
      normalize_work (VDict [("topics", VList [VNone])]) sid = Raise AttributeError)
  /\ @normalize_work AsciiText.builtins (VDict [("keywords", VList [VStr "ai"])]) "A1"
     = Raise AttributeError
  /\ @normalize_work AsciiText.builtins (VDict [("authorships", VList [VStr "x"])]) "A1"
     = Raise AttributeError
  /\ @dedupe_works AsciiText.builtins
       [VDict [("doi", VStr "10.1/x"); ("cited_by_count", VStr "n/a")];
        VDict [("doi", VStr "10.1/x")]]
     = Raise ValueError
  /\ @_safe_int AsciiText.builtins (VStr "n/a") = None
  /\ @dedupe_works AsciiText.builtins [VDict [("authorships", VList [VNone])]]
     = Raise AttributeError
  /\ @main AsciiText.builtins None
       (fun _ => Ok [VDict [("title", VStr "A study"); ("topics", VList [VNone])]]) "now"
     = Raise AttributeError.
Proof.
  split; [intros L sid; reflexivity |].
  repeat split; vm_compute; reflexivity.
Qed.

(** ** The ASCII implementation meets the laws *)

Lemma ascii_laws : BuiltinLaws AsciiText.builtins.
Proof.
  split.
  - reflexivity.
  - intros s. change (AsciiText.upper s = "" <-> s = "").
    destruct s; simpl; split; intros H; (reflexivity || discriminate H).
  - reflexivity.
Qed.

(** ** Concrete runs *)

Lemma winner_is_first_maximum_witness :
  @dedupe_works AsciiText.builtins [journal_version; repository_copy] = Ok [repository_copy]
  /\ exists b,
       @fill_buckets AsciiText.builtins [journal_version; repository_copy] [] = Ok b
       /\ Forall2 (fun kg w =>
                     snd kg = filter (@has_key AsciiText.builtins (fst kg))
                                     [journal_version; repository_copy]
                     /\ ((1 < List.length (snd kg))%nat
                         -> @first_maximum AsciiText.builtins (snd kg) w))
                  b [repository_copy].
Proof.
  assert (H : @dedupe_works AsciiText.builtins [journal_version; repository_copy]
              = Ok [repository_copy]) by (vm_compute; reflexivity).
  split; [exact H |].
  exact (proj1 winner_is_first_maximum AsciiText.builtins _ _ H).
Defined.

Lemma dedupe_works_idempotent_witness :
  @dedupe_works AsciiText.builtins [journal_version; repository_copy] = Ok [repository_copy]
  /\ exists b,
       @fill_buckets AsciiText.builtins [repository_copy] [] = Ok b
       /\ Forall (fun kg => List.length (snd kg) = 1%nat) b.
Proof.
  assert (H : @dedupe_works AsciiText.builtins [journal_version; repository_copy]
              = Ok [repository_copy]) by (vm_compute; reflexivity).
  split; [exact H |].
  exact (proj2 (dedupe_works_idempotent AsciiText.builtins _) _ H).
Defined.

Lemma dedupe_works_sound_witness :
  @dedupe_works AsciiText.builtins [journal_version; repository_copy] = Ok [repository_copy]
  /\ incl [repository_copy] [journal_version; repository_copy]
  /\ (exists ks,
        Forall2 (fun w k => @dedupe_key AsciiText.builtins w = Ok k) [repository_copy] ks
        /\ NoDup ks)
  /\ (List.length [repository_copy] <= List.length [journal_version; repository_copy])%nat.
Proof.
  assert (H : @dedupe_works AsciiText.builtins [journal_version; repository_copy]
              = Ok [repository_copy]) by (vm_compute; reflexivity).
  split; [exact H |].
  exact (dedupe_works_sound AsciiText.builtins _ _ H).
Defined.

Lemma doi_key_stable_witness :
  @_get_doi AsciiText.builtins (VDict [("doi", VStr " HTTPS://doi.org/10.1/ABC ")])
  = Ok (Some "10.1/abc")
  /\ @_get_doi AsciiText.builtins (VDict [("ids", VDict [("doi", VStr "doi:10.1/abc")])])
     = Ok (Some "10.1/abc")
  /\ "10.1/abc" <> ""
  /\ @dedupe_key AsciiText.builtins (VDict [("doi", VStr " HTTPS://doi.org/10.1/ABC ")])
     = Ok ("doi", "10.1/abc")
  /\ @dedupe_key AsciiText.builtins (VDict [("ids", VDict [("doi", VStr "doi:10.1/abc")])])
     = Ok ("doi", "10.1/abc").
Proof.
  assert (H1 : @_get_doi AsciiText.builtins (VDict [("doi", VStr " HTTPS://doi.org/10.1/ABC ")])
               = Ok (Some "10.1/abc")) by (vm_compute; reflexivity).
  assert (H2 : @_get_doi AsciiText.builtins
                 (VDict [("ids", VDict [("doi", VStr "doi:10.1/abc")])])
               = Ok (Some "10.1/abc")) by (vm_compute; reflexivity).
  split; [exact H1 |]. split; [exact H2 |].
  exact (proj1 doi_key_stable AsciiText.builtins _ _ _ H1 H2).
Defined.

Lemma aggregate_correct_witness :
  exists r,
    @main AsciiText.builtins None
      (fun _ => Ok [raw_work 2020 5; raw_work 2021 7; raw_work 2020 3]) "now" = Ok r
    /\ total_citations r = sum_Z (map p_citations (works r))
    /\ citations_by_year r = build_citations_by_year (works r).
Proof.
  eexists. split; [vm_compute; reflexivity |].
  apply (proj1 (proj2 aggregate_correct) AsciiText.builtins None
           (fun _ => Ok [raw_work 2020 5; raw_work 2021 7; raw_work 2020 3]) "now").
  vm_compute; reflexivity.
Defined.

Lemma report_works_sorted_witness :
  exists r,
    @main AsciiText.builtins None
      (fun _ => Ok [raw_work 2020 5; VDict [("title", VStr "No year")]; raw_work 2021 7])
      "now" = Ok r
    /\ map p_year (works r) = [Some 2021; Some 2020; None]
    /\ StronglySorted report_order (works r).
Proof.
  eexists. split; [vm_compute; reflexivity |]. split; [reflexivity |].
  apply (report_works_sorted AsciiText.builtins None
           (fun _ => Ok [raw_work 2020 5; VDict [("title", VStr "No year")]; raw_work 2021 7])
           "now").
  vm_compute; reflexivity.
Defined.

Lemma citations_coerced_witness :
  exists p,
    @normalize_work AsciiText.builtins (VDict [("cited_by_count", VStr " 12 ")]) "A1" = Ok p
    /\ p_citations p = 12
    /\ exists c,
         py_get (VDict [("cited_by_count", VStr " 12 ")]) "cited_by_count" = Ok c
         /\ (forall d, VDict [("cited_by_count", VStr " 12 ")] = VDict d ->
                       dict_get "cited_by_count" d = None -> c = VNone)
         /\ (c = VNone -> p_citations p = 0)
         /\ (forall e, @py_int AsciiText.builtins c = Raise e -> p_citations p = 0)
         /\ (forall z, @py_int AsciiText.builtins c = Ok z -> p_citations p = z)
         /\ (p_citations p < 0 <-> exists z, @py_int AsciiText.builtins c = Ok z /\ z < 0).
Proof.
  eexists. split; [vm_compute; reflexivity |]. split; [reflexivity |].
  apply (citations_coerced AsciiText.builtins _ "A1").
  vm_compute; reflexivity.
Defined.

(** A record with a negative citation count keeps it through
    [normalize_work]. *)
Lemma citations_nonnegative_counterexample :
  exists p,
    @normalize_work AsciiText.builtins (VDict [("cited_by_count", VInt (-3))]) "A1" = Ok p
    /\ p_citations p = -3
    /\ ~ 0 <= p_citations p.
Proof.
  eexists. split; [vm_compute; reflexivity |]. split; [reflexivity |].
  simpl. lia.
Qed.

Lemma normalize_work_empty_witness :
  exists p,
    @normalize_work AsciiText.builtins (VDict []) "A1" = Ok p
    /\ p_title p = "Untitled" /\ p_citations p = 0 /\ p_year p = None
    /\ p_venue p = "—" /\ p_url p = "#".
Proof.
  eexists. split; [exact (normalize_work_empty AsciiText.builtins ascii_laws "A1") |].
  repeat split.
Defined.

Lemma author_id_required_witness :
  @normalize_author_id AsciiText.builtins None = Raise ValueError
  /\ @main AsciiText.builtins (Some " https://openalex.org/ ") (fun _ => Ok []) "now"
     = Raise ValueError
  /\ exists a,
       @normalize_author_id AsciiText.builtins (Some "https://openalex.org/a504") = Ok a
       /\ a <> "".
Proof.
  pose proof (author_id_required AsciiText.builtins ascii_laws) as (H0 & _ & H2 & H3 & _).
  split; [exact H0 |]. split.
  - apply H3. vm_compute; reflexivity.
  - apply H2. vm_compute. discriminate.
Defined.

(** ** Further properties of the identity keys *)






(** ** Further properties of the deduplication *)

Lemma setdefault_keeps_keys (k k0 : key) (w : value) (b : list (key * list value)) :
  In k0 (map fst b) -> In k0 (map fst (setdefault_append k w b)).
Proof.
  rewrite keys_setdefault. destruct (existsb (key_eqb k) (map fst b)); [auto |].
  intros H; apply in_or_app; left; exact H.
Qed.

Lemma setdefault_adds_key (k : key) (w : value) (b : list (key * list value)) :
  In k (map fst (setdefault_append k w b)).
Proof.
  rewrite keys_setdefault. destruct (existsb (key_eqb k) (map fst b)) eqn:E.
  - apply existsb_key_In; exact E.
  - apply in_or_app; right; left; reflexivity.
Qed.

Lemma group_all_keeps_keys (kws : list (key * value)) (b : list (key * list value))
  (k : key) :
  In k (map fst b) \/ In k (map fst kws) -> In k (map fst (group_all kws b)).
Proof.
  revert b; induction kws as [| kw kws IH]; simpl; intros b H.
  - destruct H as [H | []]; exact H.
  - apply IH. destruct H as [H | [<- | H]].
    + left; apply setdefault_keeps_keys; exact H.
    + left; apply setdefault_adds_key.
    + right; exact H.
Qed.

Lemma Forall2_In_l {A B : Type} (R : A -> B -> Prop) (l : list A) (l' : list B) (x : A) :
  Forall2 R l l' -> In x l -> exists y, In y l' /\ R x y.
Proof.
  induction 1 as [| a b l l' Hab _ IH]; intros Hin; [contradiction |].
  destruct Hin as [<- | Hin]; [exists b; split; [left; reflexivity | exact Hab] |].
  destruct (IH Hin) as (y & Hy & Hxy). exists y; split; [right; exact Hy | exact Hxy].
Qed.

Lemma Forall2_In_r {A B : Type} (R : A -> B -> Prop) (l : list A) (l' : list B) (y : B) :
  Forall2 R l l' -> In y l' -> exists x, In x l /\ R x y.
Proof.
  induction 1 as [| a b l l' Hab _ IH]; intros Hin; [contradiction |].
  destruct Hin as [<- | Hin]; [exists a; split; [left; reflexivity | exact Hab] |].
  destruct (IH Hin) as (x & Hx & Hxy). exists x; split; [right; exact Hx | exact Hxy].
Qed.

(** X2. No work is lost by [dedupe_works]: for every input record the output
    holds a record of the same identity key. *)
Theorem dedupe_works_complete (L : Builtins) (ws out : list value) (w : value) :
  dedupe_works ws = Ok out -> In w ws ->
  exists k w', dedupe_key w = Ok k /\ In w' out /\ dedupe_key w' = Ok k.
Proof.
  intros H Hw. destruct (dedupe_winners _ _ H) as (b & Hb & _ & Hwin).
  destruct (fill_buckets_group _ _ _ Hb) as (ks & Hks & ->).
  destruct (Forall2_In_l _ _ _ _ Hks Hw) as (k & Hk & Hwk).
  exists k.
  assert (Hin : In k (map fst (group_all (combine ks ws) []))).
  { apply group_all_keeps_keys. right.
    destruct (combine_Forall2 _ _ _ Hks) as (_ & _ & ->). exact Hk. }
  destruct (winners_keys _ _ _ Hwin) as (Hout & _).
  destruct (Forall2_In_r _ _ _ _ Hout Hin) as (w' & Hw' & Hk').
  exists w'. repeat split; assumption.
Qed.

Lemma dedupe_distinct_keys {L : Builtins} (ws : list value) (ks : list key) :
  Forall2 (fun w k => dedupe_key w = Ok k) ws ks -> NoDup ks -> dedupe_works ws = Ok ws.
Proof.
  intros Hks Hnd.
  destruct (combine_Forall2 _ _ _ Hks) as (_ & Hsnd & Hfst).
  unfold dedupe_works.
  rewrite (fill_buckets_of_keys _ _ [] Hks), group_all_singletons
    by (simpl; rewrite Hfst; exact Hnd).
  simpl. rewrite <- Hsnd at 2.
  generalize (combine ks ws). intros l.
  induction l as [| [k w] l IH]; simpl; [reflexivity |].
  rewrite IH; reflexivity.
Qed.

(** X3. When the records of the input derive pairwise distinct identity
    keys, [dedupe_works] returns the input as it is, in the same order; no
    ranking tuple is computed, so a citation count that is not a number does
    no harm there. *)
Theorem dedupe_works_distinct (L : Builtins) (ws : list value) (ks : list key) :
  Forall2 (fun w k => dedupe_key w = Ok k) ws ks -> NoDup ks -> dedupe_works ws = Ok ws.
Proof. apply dedupe_distinct_keys. Qed.

(** X4. Two records whose normalised DOIs differ are never merged, whatever
    their titles, and a record with a DOI is never merged with one without:
    both are kept, in input order. *)
Theorem different_doi_never_merged (L : Builtins) (w1 w2 : value) (d1 : string)
  (o2 : option string) (k2 : key) :
  _get_doi w1 = Ok (Some d1) -> _get_doi w2 = Ok o2 -> o2 <> Some d1 ->
  dedupe_key w2 = Ok k2 ->
  dedupe_works [w1; w2] = Ok [w1; w2] /\ dedupe_works [w2; w1] = Ok [w2; w1].
Proof.
  intros H1 H2 Hne Hk2.
  assert (Hk1 : dedupe_key w1 = Ok ("doi", d1)).
  { unfold dedupe_key. rewrite H1. reflexivity. }
  assert (Hdiff : k2 <> ("doi", d1)).
  { intros ->. rewrite (doi_key_get_doi _ _ Hk2) in H2.
    injection H2 as <-. apply Hne; reflexivity. }
  split.
  - apply (dedupe_distinct_keys _ [("doi", d1); k2]).
    + repeat constructor; assumption.
    + repeat constructor; simpl; [intros [E | []]; apply Hdiff; exact E | intros []].
  - apply (dedupe_distinct_keys _ [k2; ("doi", d1)]).
    + repeat constructor; assumption.
    + repeat constructor; simpl; [intros [E | []]; apply Hdiff; symmetry; exact E | intros []].
Qed.

Lemma fill_buckets_raise {L : Builtins} (pre post : list value) (w : value) (e : exn)
  (b : list (key * list value)) :
  Forall (fun x => exists k, dedupe_key x = Ok k) pre ->
  dedupe_key w = Raise e ->
  fill_buckets (pre ++ w :: post) b = Raise e.
Proof.
  intros Hpre Hw. revert b.
  induction Hpre as [| x pre (k & Hk) _ IH]; intros b; simpl.
  - rewrite Hw. reflexivity.
  - rewrite Hk; simpl. apply IH.
Qed.

(** X5. [dedupe_works] derives the key of every record before it selects
    anything: the exception of the first record whose key cannot be derived
    is the outcome of the call, wherever that record stands and even if it
    would have been alone in its bucket. *)
Theorem dedupe_works_key_failure (L : Builtins) (pre post : list value) (w : value)
  (e : exn) :
  Forall (fun x => exists k, dedupe_key x = Ok k) pre ->
  dedupe_key w = Raise e ->
  dedupe_works (pre ++ w :: post) = Raise e.
Proof.
  intros Hpre Hw. unfold dedupe_works.
  rewrite (fill_buckets_raise pre post w e [] Hpre Hw). reflexivity.
Qed.

Lemma score_has_doi {L : Builtins} (w : value) (k : key) (h c b : Z) :
  dedupe_key w = Ok k -> score w = Ok (h, c, b) ->
  h = if String.eqb (fst k) "doi" then 1 else 0.
Proof.
  unfold dedupe_key, score. intros Hk Hs.
  bind_inv Hk. rewrite E in Hs. simpl in Hs.
  repeat bind_inv Hs. injection Hs as <- _ _.
  destruct x as [d |].
  - injection Hk as <-. reflexivity.
  - bind_inv Hk. destruct x as [hal |].
    + injection Hk as <-. reflexivity.
    + repeat bind_inv Hk. injection Hk as <-. reflexivity.
Qed.

(** X6. The record kept for an identity key is cited at least as often as
    every input record of that key: a record [x] that shares the key of a
    kept record [w] is [w] itself or has a citation count that is lower, or
    equal with a publisher bonus that is not higher. *)
Theorem winner_most_cited (L : Builtins) (ws out : list value) (w x : value) (k : key) :
  dedupe_works ws = Ok out ->
  In w out -> dedupe_key w = Ok k ->
  In x ws -> dedupe_key x = Ok k ->
  x = w
  \/ exists h c b c' b',
       score w = Ok (h, c, b) /\ score x = Ok (h, c', b')
       /\ (c' < c \/ (c' = c /\ b' <= b)).
Proof.
  intros H Hw Hkw Hx Hkx.
  destruct (dedupe_winners _ _ H) as (bs & _ & _ & Hwin).
  destruct (Forall2_In_r _ _ _ _ Hwin Hw) as ([k0 g] & _ & Hg & Hpick & Hwg).
  simpl in Hg, Hpick, Hwg.
  assert (Hk0 : k0 = k).
  { rewrite Hg in Hwg. apply filter_In in Hwg. destruct Hwg as [_ Hh].
    apply has_key_key in Hh. congruence. }
  subst k0.
  assert (Hxg : In x g).
  { rewrite Hg. apply filter_In. split; [exact Hx |].
    unfold has_key. rewrite Hkx. apply key_eqb_refl. }
  destruct g as [| a [| a' g']].
  - contradiction.
  - simpl in Hpick. injection Hpick as ->.
    destruct Hxg as [-> | []]. left; reflexivity.
  - destruct (pick_winner_first_maximum _ _ Hpick) as (pre & post & s & Hsplit & Hs & Hpre & Hpost);
      [simpl; lia |].
    rewrite Hsplit in Hxg. rewrite Forall_forall in Hpre, Hpost.
    destruct s as [[h c] b].
    assert (Hle : forall sx, score x = Ok sx -> score_le sx (h, c, b) ->
                  exists h0 c0 b0 c' b', score w = Ok (h0, c0, b0) /\ score x = Ok (h0, c', b')
                                         /\ (c' < c0 \/ (c' = c0 /\ b' <= b0))).
    { intros [[h' c'] b'] Hsx Hle. exists h, c, b, c', b'.
      pose proof (score_has_doi _ _ _ _ _ Hkw Hs) as Hh.
      pose proof (score_has_doi _ _ _ _ _ Hkx Hsx) as Hh'.
      assert (Eh : h' = h) by congruence. clear Hh Hh'. subst h'.
      split; [exact Hs |]. split; [exact Hsx |].
      destruct Hle as [Hlt | Heq]; [unfold score_lt in Hlt; simpl in Hlt; lia |].
      injection Heq as -> ->. right. split; [reflexivity | lia]. }
    apply in_app_or in Hxg. destruct Hxg as [Hxg | [<- | Hxg]].
    + right. destruct (Hpre x Hxg) as (sx & Hsx & Hlt). apply (Hle sx Hsx). left; exact Hlt.
    + left; reflexivity.
    + right. destruct (Hpost x Hxg) as (sx & Hsx & Hle'). apply (Hle sx Hsx Hle').
Qed.

Lemma filter_filter {A : Type} (f g : A -> bool) (l : list A) :
  filter f (filter g l) = filter (fun x => g x && f x) l.
Proof.
  induction l as [| x l IH]; simpl; [reflexivity |].
  destruct (g x); simpl; [destruct (f x); rewrite IH; reflexivity | exact IH].
Qed.

Lemma group_all_key_order (kws : list (key * value)) (b : list (key * list value)) :
  map fst (group_all kws b)
  = (map fst b
     ++ filter (fun k => negb (existsb (key_eqb k) (map fst b))) (keep_first (map fst kws)))%list.
Proof.
  revert b; induction kws as [| [k w] kws IH]; intros b; simpl.
  - rewrite app_nil_r; reflexivity.
  - rewrite IH, keys_setdefault.
    destruct (existsb (key_eqb k) (map fst b)) eqn:Hk; simpl.
    + f_equal. rewrite filter_filter. apply filter_ext. intros k'.
      destruct (key_eqb k' k) eqn:E; simpl; [| reflexivity].
      apply key_eqb_spec in E; subst k'. rewrite Hk. reflexivity.
    + rewrite <- app_assoc; simpl. f_equal. f_equal.
      rewrite filter_filter. apply filter_ext. intros k'.
      rewrite existsb_app; simpl. rewrite orb_false_r, negb_orb.
      rewrite (key_eqb_sym k' k). apply andb_comm.
Qed.

(** X7. [dedupe_works] returns its records in the order in which their
    identity keys first occur in the input. *)
Theorem dedupe_works_order (L : Builtins) (ws out : list value) :
  dedupe_works ws = Ok out ->
  exists ks kout,
    Forall2 (fun w k => dedupe_key w = Ok k) ws ks
    /\ Forall2 (fun w k => dedupe_key w = Ok k) out kout
    /\ kout = keep_first ks.
Proof.
  intros H. destruct (dedupe_winners _ _ H) as (b & Hb & _ & Hwin).
  destruct (fill_buckets_group _ _ _ Hb) as (ks & Hks & ->).
  destruct (winners_keys _ _ _ Hwin) as (Hout & _).
  exists ks, (map fst (group_all (combine ks ws) [])).
  split; [exact Hks |]. split; [exact Hout |].
  rewrite group_all_key_order; simpl.
  destruct (combine_Forall2 _ _ _ Hks) as (_ & _ & ->).
  clear. induction (keep_first ks) as [| k l IH]; simpl; [reflexivity | f_equal; exact IH].
Qed.

(** ** Further properties of the normalisation *)

Lemma startswith_app (p s : string) : startswith (p ++ s) p = true.
Proof. apply prefix_app. Qed.

Lemma lstrip_char_noop (c : ascii) (s : string) :
  startswith s (String c "") = false -> lstrip_char c s = s.
Proof.
  destruct s as [| c' s]; simpl; [reflexivity |].
  unfold startswith; simpl.
  destruct (ascii_dec c c') as [-> | Hne].
  - destruct s; discriminate.
  - intros _. destruct (Ascii.eqb_spec c c'); [contradiction | reflexivity].
Qed.

(** X8. An identifier accepted by [normalize_author_id] starts with "A": it
    is the cleaned identifier in upper case, with an "A" put in front when it
    does not start with one. *)
Theorem normalize_author_id_shape (L : Builtins) (raw : option string) (a : string) :
  normalize_author_id raw = Ok a ->
  startswith a "A" = true
  /\ a <> ""
  /\ (a = str_upper (cleaned_author_id raw)
      \/ (a = "A" ++ str_upper (cleaned_author_id raw)
          /\ startswith (str_upper (cleaned_author_id raw)) "A" = false)).
Proof.
  unfold normalize_author_id, cleaned_author_id.
  set (c := str_upper _). intros H.
  destruct (nonempty c) eqn:Hc; simpl in H; [| discriminate].
  destruct (startswith c "A") eqn:HA; simpl in H; injection H as <-.
  - split; [exact HA |]. split; [apply nonempty_true; exact Hc | left; reflexivity].
  - rewrite (lstrip_char_noop _ _ HA).
    split; [apply (startswith_app "A") |]. split; [discriminate |].
    right. split; reflexivity.
Qed.

Lemma http_url_some (v : value) (u : string) :
  http_url v = Some u -> v = VStr u /\ startswith u "http" = true.
Proof.
  destruct v; simpl; try discriminate.
  destruct (startswith s "http") eqn:E; [| discriminate].
  intros H; injection H as <-. split; [reflexivity | exact E].
Qed.

Lemma pick_best_url_cases (w : value) (u : string) :
  pick_best_url w = Ok u -> u = "#" \/ startswith u "http" = true.
Proof.
  unfold pick_best_url. intros H. bind_inv H. bind_inv H.
  destruct (http_url x0) as [u0 |] eqn:Hu1.
  { injection H as <-. right. apply (http_url_some _ _ Hu1). }
  bind_inv H. bind_inv H.
  destruct (http_url x2) as [u0 |] eqn:Hu2.
  { injection H as <-. right. apply (http_url_some _ _ Hu2). }
  bind_inv H. destruct x3; try (injection H as <-; left; reflexivity).
  destruct (startswith s "http") eqn:Hu3; injection H as <-; right; [exact Hu3 |].
  apply (startswith_app "http" ("s://openalex.org/" ++ _)).
Qed.

(** X9. [pick_best_url] never returns an empty URL: the result is the
    placeholder "#" or starts with "http".  A DOI URL in [ids] is returned
    as it is, before the landing page and the OpenAlex URL are looked at. *)
Theorem pick_best_url_shape (w : value) (u : string) :
  pick_best_url w = Ok u ->
  u <> ""
  /\ (u = "#" \/ startswith u "http" = true)
  /\ (forall ids d, py_get w "ids" = Ok (VDict ids) ->
                    dict_get "doi" ids = Some (VStr d) -> startswith d "http" = true ->
                    u = d).
Proof.
  intros H. pose proof (pick_best_url_cases _ _ H) as Hc.
  split; [| split; [exact Hc |]].
  - destruct Hc as [-> | Hs]; [discriminate |]. intros ->. discriminate.
  - intros ids d Hids Hd Hhttp. unfold pick_best_url in H.
    rewrite Hids in H. simpl in H.
    assert (Ht : py_or (VDict ids) (VDict []) = VDict ids)
      by (destruct ids; [discriminate | reflexivity]).
    rewrite Ht in H. simpl in H. rewrite Hd in H. simpl in H.
    rewrite Hhttp in H. injection H as <-. reflexivity.
Qed.

Lemma stripped_text_some {L : Builtins} (v : value) (s : string) :
  stripped_text v = Some s -> s <> "".
Proof.
  destruct v; simpl; try discriminate.
  destruct (nonempty (str_strip s0)) eqn:E; [| discriminate].
  intros H; injection H as <-. apply nonempty_true; exact E.
Qed.

Lemma extract_venue_nonempty {L : Builtins} (w : value) (v : string) :
  extract_venue w = Ok v -> v <> "".
Proof.
  unfold extract_venue. intros H. bind_inv H. bind_inv H. bind_inv H.
  destruct (stripped_text x1) as [n |] eqn:Hn1.
  { injection H as <-. eapply stripped_text_some; exact Hn1. }
  bind_inv H. bind_inv H. bind_inv H.
  destruct (stripped_text x4) as [n |] eqn:Hn2; injection H as <-.
  - eapply stripped_text_some; exact Hn2.
  - discriminate.
Qed.

Lemma flat_map_option_length {A : Type} (f : A -> list string) (l : list A) :
  (forall x, List.length (f x) <= 1)%nat ->
  (List.length (flat_map f l) <= List.length l)%nat.
Proof.
  intros Hf. induction l as [| x l IH]; simpl; [lia |].
  rewrite length_app. specialize (Hf x). lia.
Qed.

Lemma top_display_names_bound {L : Builtins} (entries : value) (top_k : nat)
  (names : list string) :
  top_display_names entries top_k = Ok names ->
  (List.length names <= top_k)%nat /\ Forall (fun n => n <> "") names.
Proof.
  unfold top_display_names. intros H.
  destruct entries; try (injection H as <-; split; [simpl; lia | constructor]).
  bind_inv H. bind_inv H. bind_inv H. injection H as <-.
  apply mapM_ok, Forall2_length in E1.
  split.
  - eapply Nat.le_trans; [apply flat_map_option_length |].
    + intros n. destruct (stripped_text n); simpl; lia.
    + rewrite <- E1. apply length_firstn_le_n || (rewrite length_firstn; lia).
  - apply Forall_forall. intros n Hn. apply in_flat_map in Hn.
    destruct Hn as (v & _ & Hv).
    destruct (stripped_text v) as [s |] eqn:Es; [| contradiction].
    destruct Hv as [<- | []]. eapply stripped_text_some; exact Es.
Qed.

Lemma str_or_nonempty (s dflt : string) : dflt <> "" -> str_or s dflt <> "".
Proof.
  intros Hd. unfold str_or. destruct (nonempty s) eqn:E; [apply nonempty_true; exact E | exact Hd].
Qed.

Lemma try_find_hal_url_match {L : Builtins} (w : value) (u : string) :
  try_find_hal_url w = Ok (Some u) -> u <> "" /\ hal_re_search u = true.
Proof.
  unfold try_find_hal_url. intros H. repeat bind_inv H. injection H as H.
  apply find_some in H. destruct H as [_ H]. apply andb_true_iff in H.
  destruct H as [H1 H2]. split; [apply nonempty_true; exact H1 | exact H2].
Qed.

Lemma extract_topics_bound {L : Builtins} (w : value) (k : nat) (names : list string) :
  extract_topics w k = Ok names ->
  (List.length names <= k)%nat /\ Forall (fun n => n <> "") names.
Proof.
  unfold extract_topics. intros H. bind_inv H. eapply top_display_names_bound; exact H.
Qed.

Lemma extract_keywords_bound {L : Builtins} (w : value) (k : nat) (names : list string) :
  extract_keywords w k = Ok names ->
  (List.length names <= k)%nat /\ Forall (fun n => n <> "") names.
Proof.
  unfold extract_keywords. intros H. bind_inv H. eapply top_display_names_bound; exact H.
Qed.

(** X10. Whatever the raw record, a work returned by [normalize_work] has a
    title, a venue and a type that are not empty, a URL that is "#" or
    starts with "http", the source "OpenAlex", at most 3 topics and at most
    10 keywords, none of them empty, and a HAL URL, if any, that is not
    empty and matches the HAL pattern. *)
Theorem normalize_work_invariants (L : Builtins) (w : value) (sid : string) (p : paper) :
  normalize_work w sid = Ok p ->
  p_title p <> "" /\ p_venue p <> "" /\ p_type p <> ""
  /\ (p_url p = "#" \/ startswith (p_url p) "http" = true)
  /\ p_source p = "OpenAlex"
  /\ (List.length (p_topics p) <= 3)%nat /\ Forall (fun n => n <> "") (p_topics p)
  /\ (List.length (p_keywords p) <= 10)%nat /\ Forall (fun n => n <> "") (p_keywords p)
  /\ (forall u, p_hal_url p = Some u -> u <> "" /\ hal_re_search u = true).
Proof.
  unfold normalize_work. intros H. repeat bind_inv H. injection H as <-. simpl.
  repeat match goal with
         | Hv : extract_venue w = Ok _ |- _ => apply extract_venue_nonempty in Hv
         | Hu : pick_best_url w = Ok _ |- _ => apply pick_best_url_cases in Hu
         | Ht : extract_topics w _ = Ok _ |- _ => apply extract_topics_bound in Ht; destruct Ht
         | Hk : extract_keywords w _ = Ok _ |- _ =>
             apply extract_keywords_bound in Hk; destruct Hk
         end.
  split; [apply str_or_nonempty; discriminate |].
  split; [assumption |].
  split; [apply str_or_nonempty; discriminate |].
  do 6 (split; [first [assumption | reflexivity] |]).
  intros u Hu. subst.
  match goal with
  | Hh : try_find_hal_url w = Ok (Some u) |- _ => exact (try_find_hal_url_match _ _ Hh)
  end.
Qed.

Lemma get_or_empty (o v : value) (k : string) :
  py_get (py_or o (VDict [])) k = Ok v ->
  (exists d, o = VDict d /\ v = field d k) \/ (v = VNone /\ truthy o = false).
Proof.
  unfold py_or. intros H. destruct (truthy o) eqn:Ht.
  - destruct o; try discriminate H. left. exists d. split; [reflexivity |].
    simpl in H. injection H as <-. reflexivity.
  - simpl in H. injection H as <-. right. split; reflexivity.
Qed.

Lemma field_some (d : list (string * value)) (k : string) (v : value) :
  field d k = v -> v <> VNone -> dict_get k d = Some v.
Proof.
  unfold field. destruct (dict_get k d); intros <- Hne; [reflexivity | contradiction].
Qed.

(** X11. [extract_is_oa] answers true only for the JSON value [true] under
    [open_access.is_oa]: any other value there, truthy or not, a missing key
    and a missing [open_access] all give false. *)
Theorem extract_is_oa_strict (w : value) (b : bool) :
  extract_is_oa w = Ok b ->
  (b = true <-> exists oa, py_get w "open_access" = Ok (VDict oa)
                           /\ dict_get "is_oa" oa = Some (VBool true)).
Proof.
  unfold extract_is_oa. intros H. bind_inv H. bind_inv H. rename x into o, x0 into v.
  assert (Hb : b = match v with VBool b0 => b0 | _ => false end).
  { destruct v; injection H as <-; reflexivity. }
  clear H. rewrite E. split.
  - intros Hbt. rewrite Hbt in Hb.
    destruct v as [| b0 | | | | |]; try discriminate. subst b0.
    destruct (get_or_empty _ _ _ E0) as [(d & -> & Hv) | [Hv _]]; [| discriminate].
    exists d. split; [reflexivity |]. apply field_some; [symmetry; exact Hv | discriminate].
  - intros (oa & Ho & Hoa). injection Ho as ->.
    assert (Ht : py_or (VDict oa) (VDict []) = VDict oa)
      by (destruct oa; [discriminate | reflexivity]).
    rewrite Ht in E0. simpl in E0. rewrite Hoa in E0. injection E0 as <-. exact Hb.
Qed.



Lemma falsy_or (v dflt : value) : truthy v = false -> py_or v dflt = dflt.
Proof. unfold py_or. intros ->. reflexivity. Qed.

Lemma text_or_falsy_strip {L : Builtins} (v : value) :
  text_or_falsy v -> exists s, py_strip (py_or v (VStr "")) = Ok s.
Proof.
  unfold py_or. destruct v as [| b | z | f | s | l | d]; simpl; intros H;
    try rewrite H; simpl; eauto.
  destruct (negb (s =? "")%string); simpl; eauto.
Qed.

Lemma top_display_names_nil {L : Builtins} (W : BuiltinLaws L) (k : nat) :
  top_display_names (VList []) k = Ok [].
Proof.
  unfold top_display_names. cbn [mapM combine bind]. rewrite sorted_nil. cbn [bind].
  rewrite firstn_nil. reflexivity.
Qed.

(** X13. A record without nested data always normalises: when the fields
    read as maps or lists are missing or falsy and [title], [type] and
    [type_crossref] are text or falsy, [normalize_work] returns a work with
    venue "—", no HAL URL, closed access with status "unknown", no topics,
    keywords or co-authors, and the year and citation count coerced from the
    raw fields. *)
Theorem normalize_work_flat (L : Builtins) (W : BuiltinLaws L)
  (d : list (string * value)) (sid : string) :
  Forall (fun k => truthy (field d k) = false) nested_fields ->
  Forall (fun k => text_or_falsy (field d k)) text_fields ->
  exists p, normalize_work (VDict d) sid = Ok p
   /\ p_venue p = "—" /\ p_hal_url p = None /\ p_is_oa p = false
    /\ p_oa_status p = "unknown" /\ p_topics p = [] /\ p_keywords p = [] /\ p_coauthors p = []
    /\ p_year p = _safe_int (field d "publication_year")
    /\ p_citations p = int_or_zero (_safe_int (field d "cited_by_count")).
Proof.
  intros Hn Ht.
  unfold nested_fields in Hn. unfold text_fields in Ht.
  repeat match goal with H : Forall _ (_ :: _) |- _ => apply Forall_cons_iff in H; destruct H as [? H] end.
  clear Hn Ht.
  unfold normalize_work, extract_venue, pick_best_url, try_find_hal_url, extract_is_oa, extract_oa_status, extract_topics, extract_keywords, extract_coauthors.
  change (py_get (VDict d)) with (fun k => Ok (field d k)). cbv beta.
  cbn [bind].
  repeat match goal with H : truthy (field d ?k) = false |- _ => rewrite ?(falsy_or (field d k)) by exact H; clear H end.
  rewrite !(top_display_names_nil W).
  cbn [bind py_get dict_get http_url stripped_text mapM only_str find app py_or truthy flat_map].
  destruct (text_or_falsy_strip _ H) as (t & ->).
  assert (Hty : exists s, (ty <- (if truthy (field d "type") then Ok (field d "type")
                                  else Ok (py_or (field d "type_crossref") (VStr ""))) ;;
                           py_strip ty) = Ok s).
  { destruct (field d "type") as [| b | z | f | s | l | d'] eqn:Et;
      unfold text_or_falsy, truthy in H0; unfold truthy; try rewrite H0; cbn [bind];
      try (apply text_or_falsy_strip; exact H1).
    destruct (negb (s =? "")%string); cbn [bind]; [simpl; eauto | apply text_or_falsy_strip; exact H1]. }
  destruct Hty as (ty & Hty).
  destruct (if truthy (field d "type") then Ok (field d "type")
            else Ok (py_or (field d "type_crossref") (VStr ""))) as [tyv | e]; [| discriminate].
  cbn [bind] in Hty |- *. rewrite Hty. cbn [bind].
  destruct (truthy (field d "doi")); cbn [bind];
    (destruct (field d "id") as [| | | | s | |]; [| | | | destruct (startswith s "http") | |]);
    cbn [bind]; eexists; (split; [reflexivity |]); repeat split.
Qed.

(** ** Further properties of the aggregation *)

Lemma sum_Z_app (l l' : list Z) : sum_Z (l ++ l') = sum_Z l + sum_Z l'.
Proof. unfold sum_Z. induction l as [| x l IH]; simpl; [reflexivity | rewrite IH; lia]. Qed.

Lemma sum_Z_perm (l l' : list Z) : Permutation l l' -> sum_Z l = sum_Z l'.
Proof.
  unfold sum_Z. induction 1; simpl; lia.
Qed.

Lemma insert_asc_perm (x : Z) (l : list Z) : Permutation (x :: l) (insert_asc x l).
Proof.
  induction l as [| y l IH]; simpl; [reflexivity |].
  destruct (x <=? y); [reflexivity |]. rewrite perm_swap. constructor. exact IH.
Qed.

Lemma sorted_asc_perm (l : list Z) : Permutation l (sorted_asc l).
Proof.
  induction l as [| x l IH]; simpl; [constructor |].
  rewrite <- insert_asc_perm. constructor. exact IH.
Qed.

Lemma by_year_add_total (y n : Z) (d : list (Z * Z)) :
  sum_Z (map snd (by_year_add y n d)) = sum_Z (map snd d) + n.
Proof.
  unfold sum_Z. induction d as [| [y0 m] d IH]; simpl; [lia |].
  destruct (y =? y0); simpl; [lia | rewrite IH; lia].
Qed.

Lemma by_year_loop_total (ps : list paper) (d : list (Z * Z)) :
  sum_Z (map snd (by_year_loop ps d))
  = sum_Z (map snd d) + sum_Z (map p_citations (filter has_year ps)).
Proof.
  revert d; induction ps as [| p ps IH]; intros d.
  - unfold sum_Z; simpl. lia.
  - cbn [by_year_loop filter]. unfold has_year at 1.
    destruct (p_year p) as [y |]; rewrite IH; [| reflexivity].
    rewrite by_year_add_total, int_or_zero_some. cbn [map]. unfold sum_Z; simpl. lia.
Qed.

Lemma by_year_get_absent (y : Z) (d : list (Z * Z)) :
  ~ In y (map fst d) -> by_year_get y d = 0.
Proof.
  induction d as [| [y0 m] d IH]; simpl; intros H; [reflexivity |].
  destruct (Z.eqb_spec y y0) as [-> | Hne]; [exfalso; apply H; left; reflexivity |].
  apply IH. intros Hin; apply H; right; exact Hin.
Qed.

Lemma by_year_get_keys_total (d : list (Z * Z)) :
  NoDup (map fst d) ->
  sum_Z (map (fun y => by_year_get y d) (map fst d)) = sum_Z (map snd d).
Proof.
  induction d as [| [y0 m] d IH]; simpl; intros Hnd; [reflexivity |].
  inversion Hnd as [| ? ? Hnot Hnd']; subst.
  rewrite Z.eqb_refl. unfold sum_Z in *; simpl. rewrite <- (IH Hnd'). f_equal.
  f_equal. apply map_ext_in. intros y Hy.
  destruct (Z.eqb_spec y y0) as [-> | _]; [contradiction | reflexivity].
Qed.

(** X14. No citation is lost or counted twice by [build_citations_by_year]:
    the citation counts of its rows add up to the citation counts of the
    papers that have a year. *)
Theorem citations_by_year_total (ps : list paper) :
  sum_Z (map snd (build_citations_by_year ps))
  = sum_Z (map p_citations (filter has_year ps)).
Proof.
  unfold build_citations_by_year.
  set (d := by_year_loop ps []).
  assert (Hnd : NoDup (map fst d)) by (apply by_year_loop_NoDup; constructor).
  rewrite map_map; simpl.
  rewrite <- (sum_Z_perm _ _ (Permutation_map _ (sorted_asc_perm (map fst d)))).
  rewrite (by_year_get_keys_total d Hnd). unfold d.
  rewrite by_year_loop_total. unfold sum_Z at 1; simpl. lia.
Qed.

Lemma strictly_sorted_unique (l l' : list Z) :
  StronglySorted Z.lt l -> StronglySorted Z.lt l' ->
  (forall x, In x l <-> In x l') -> l = l'.
Proof.
  intros Hl; revert l'. induction Hl as [| x l Hl IH Hx]; intros l' Hl' Heq.
  - destruct l' as [| y l']; [reflexivity |].
    exfalso. apply (proj2 (Heq y)). left; reflexivity.
  - destruct Hl' as [| y l' Hl' Hy].
    + exfalso. apply (proj1 (Heq x)). left; reflexivity.
    + rewrite Forall_forall in Hx, Hy.
      assert (Exy : x = y).
      { destruct (proj1 (Heq x) (or_introl eq_refl)) as [E | Hin]; [symmetry; exact E |].
        destruct (proj2 (Heq y) (or_introl eq_refl)) as [E | Hin']; [exact E |].
        specialize (Hx _ Hin'). specialize (Hy _ Hin). lia. }
      subst y. f_equal. apply IH; [exact Hl' |].
      intros z. split; intros Hz.
      * destruct (proj1 (Heq z) (or_intror Hz)) as [E | Hin]; [| exact Hin].
        specialize (Hx _ Hz). lia.
      * destruct (proj2 (Heq z) (or_intror Hz)) as [E | Hin]; [| exact Hin].
        specialize (Hy _ Hz). lia.
Qed.

Lemma year_sum_perm (y : Z) (ps ps' : list paper) :
  Permutation ps ps' -> year_sum y ps = year_sum y ps'.
Proof.
  intros H. unfold year_sum. apply sum_Z_perm, Permutation_map.
  induction H; simpl.
  - constructor.
  - destruct (published_in y x); [constructor |]; exact IHPermutation.
  - destruct (published_in y x), (published_in y y0);
      try (constructor; reflexivity); reflexivity.
  - etransitivity; eassumption.
Qed.

Lemma build_citations_by_year_perm (ps ps' : list paper) :
  Permutation ps ps' -> build_citations_by_year ps = build_citations_by_year ps'.
Proof.
  intros H. unfold build_citations_by_year.
  assert (Hk : sorted_asc (map fst (by_year_loop ps [])) = sorted_asc (map fst (by_year_loop ps' []))).
  { apply strictly_sorted_unique;
      try (apply sorted_asc_sorted, by_year_loop_NoDup; constructor).
    intros y. rewrite !sorted_asc_In, !by_year_loop_keys. simpl.
    split; (intros [[] | (p & Hp & Hy)]; right; exists p; split; [| exact Hy]).
    - eapply Permutation_in; eassumption.
    - eapply Permutation_in; [symmetry |]; eassumption. }
  rewrite Hk. apply map_ext. intros y.
  rewrite !by_year_loop_get, (year_sum_perm y ps ps' H). reflexivity.
Qed.

(** X15. The aggregates do not depend on the order of the papers:
    [build_citations_by_year] and the citation total give the same result on
    every permutation of a list, so the aggregates of the report are those
    of the normalised works as they leave the deduplication. *)
Theorem aggregates_order_independent (ps ps' : list paper) :
  Permutation ps ps' ->
  build_citations_by_year ps = build_citations_by_year ps'
  /\ sum_citations ps = sum_citations ps'
  /\ build_citations_by_year (sort_papers ps) = build_citations_by_year ps
  /\ sum_citations (sort_papers ps) = sum_citations ps.
Proof.
  intros H.
  assert (Hsum : forall l l', Permutation l l' -> sum_citations l = sum_citations l').
  { intros l l' Hp. rewrite !sum_citations_sum. apply sum_Z_perm, Permutation_map, Hp. }
  split; [apply build_citations_by_year_perm; exact H |].
  split; [apply Hsum; exact H |].
  split; [apply build_citations_by_year_perm | apply Hsum];
    symmetry; apply sort_papers_perm.
Qed.

(** ** Further properties of the pipeline *)

Lemma dedupe_works_incl_length {L : Builtins} (ws out : list value) :
  dedupe_works ws = Ok out -> incl out ws /\ (List.length out <= List.length ws)%nat.
Proof.
  intros H. destruct (dedupe_winners _ _ H) as (b & _ & Hnd & Hw).
  destruct (winners_keys _ _ _ Hw) as (Hks & Hincl).
  split; [exact Hincl |].
  apply NoDup_incl_length; [eapply keyed_NoDup; eassumption | exact Hincl].
Qed.

(** X16. Every work of the report is the normalisation of a record that
    the fetch returned, [papers_tracked] is the number of works of the
    report, and that number does not exceed the number of fetched records. *)
Theorem report_provenance (L : Builtins) (env : option string)
  (fetch : string -> result (list value)) (now : string) (r : report) :
  main env fetch now = Ok r ->
  exists ws,
    fetch (author_openalex_id r) = Ok ws
    /\ papers_tracked r = Z.of_nat (List.length (works r))
    /\ (List.length (works r) <= List.length ws)%nat
    /\ (forall p, In p (works r) ->
          exists w, In w ws /\ normalize_work w (author_openalex_id r) = Ok p).
Proof.
  intros H.
  destruct (main_ok _ _ _ _ H) as (a & ws & ds & ps & _ & Hws & Hds & Hps & ->); simpl.
  destruct (dedupe_works_incl_length _ _ Hds) as (Hincl & Hlen).
  apply mapM_ok in Hps.
  exists ws. split; [exact Hws |]. split; [reflexivity |]. split.
  - rewrite <- (Permutation_length (sort_papers_perm ps)).
    rewrite <- (Forall2_length Hps). exact Hlen.
  - intros p Hp.
    apply (Permutation_in _ (Permutation_sym (sort_papers_perm ps))) in Hp.
    destruct (Forall2_In_r _ _ _ _ Hps Hp) as (w & Hw & Hn).
    exists w. split; [apply Hincl; exact Hw | exact Hn].
Qed.

Lemma mapM_raise {A B : Type} (f : A -> result B) (pre post : list A) (x : A) (e : exn) :
  Forall (fun y => exists b, f y = Ok b) pre -> f x = Raise e ->
  mapM f (pre ++ x :: post) = Raise e.
Proof.
  intros Hpre Hx. induction Hpre as [| y pre (b & Hb) _ IH]; simpl.
  - rewrite Hx. reflexivity.
  - rewrite Hb; simpl. rewrite IH. reflexivity.
Qed.

(** X17. The pipeline writes no partial report: when the fetch or the
    deduplication raises, or when one of the kept records fails to
    normalise, [main] raises that exception, the first one in the order of
    the kept records. *)
Theorem main_all_or_nothing (L : Builtins) (env : option string)
  (fetch : string -> result (list value)) (now : string) (a : string) (e : exn) :
  normalize_author_id (Some (getenv env "A5042578790")) = Ok a ->
  (fetch a = Raise e -> main env fetch now = Raise e)
  /\ (forall ws, fetch a = Ok ws -> dedupe_works ws = Raise e ->
                 main env fetch now = Raise e)
  /\ (forall ws pre w post,
         fetch a = Ok ws -> dedupe_works ws = Ok (pre ++ w :: post)%list ->
         Forall (fun x => exists p, normalize_work x a = Ok p) pre ->
         normalize_work w a = Raise e ->
         main env fetch now = Raise e).
Proof.
  intros Ha. unfold main. rewrite Ha. cbn [bind].
  split; [intros ->; reflexivity |]. split.
  - intros ws -> Hd. cbn [bind]. rewrite Hd. reflexivity.
  - intros ws pre w post -> Hd Hpre Hw. cbn [bind]. rewrite Hd. cbn [bind].
    rewrite (mapM_raise (fun x => normalize_work x a) pre post w e Hpre Hw). reflexivity.
Qed.

(** ** Pagination *)

Section FetchFacts.
Variable _get : string -> value -> result value.
Variable text_items : string -> list value.

Lemma fetch_pages_serves (a : string) (pp : Z) (pages : list (list value * value))
  (c last : value) (n : nat) (acc : list value) :
  serves _get a pp c pages last ->
  fetch_pages _get text_items (List.length pages + n) a pp c acc
  = fetch_pages _get text_items n a pp last (acc ++ List.concat (map fst pages)).
Proof.
  revert c acc; induction pages as [| [b nc] pages IH]; intros c acc; simpl.
  - intros ->. rewrite app_nil_r. reflexivity.
  - intros ((data & Hget & Hres & meta & Hmeta & Hnext) & Htruthy & Hrest).
    rewrite Hget; cbn [bind]. rewrite Hres; cbn [bind list_extend].
    rewrite Hmeta; cbn [bind]. rewrite Hnext; cbn [bind]. rewrite Htruthy; cbn [negb].
    rewrite (IH _ _ Hrest), <- app_assoc. reflexivity.
Qed.

Lemma fuel_split (fuel k : nat) : (k < fuel)%nat -> exists n, fuel = (k + S n)%nat.
Proof. intros H. exists (fuel - k - 1)%nat. lia. Qed.

End FetchFacts.

(** X18. When the server answers the cursor "*" and each next cursor in turn
    with a page, and the last page carries no next cursor,
    [fetch_all_works_for_author] returns the records of all pages in page
    order, after one request per page. *)
Theorem fetch_all_pages (_get : string -> value -> result value)
  (text_items : string -> list value) (a : string) (pp : Z)
  (pages : list (list value * value)) (last data : value) (batch : list value)
  (next : value) (fuel : nat) :
  serves _get a pp (VStr "*") pages last ->
  _get (OPENALEX_BASE ++ "/works") (request_params a pp last) = Ok data ->
  is_page data batch next -> truthy next = false ->
  (List.length pages < fuel)%nat ->
  fetch_all_works_for_author _get text_items fuel a pp
  = Ok (Some (List.concat (map fst pages) ++ batch)%list).
Proof.
  intros Hs Hget (Hres & meta & Hmeta & Hnext) Hlast Hfuel.
  destruct (fuel_split _ _ Hfuel) as (n & ->).
  unfold fetch_all_works_for_author.
  rewrite (fetch_pages_serves _get text_items a pp pages _ last (S n) [] Hs).
  cbn [fetch_pages app]. rewrite Hget; cbn [bind]. rewrite Hres; cbn [bind list_extend].
  rewrite Hmeta; cbn [bind]. rewrite Hnext; cbn [bind]. rewrite Hlast. reflexivity.
Qed.


(** ** Concrete runs of the further properties *)


Lemma dedupe_works_complete_witness :
  @dedupe_works AsciiText.builtins [journal_version; repository_copy] = Ok [repository_copy]
  /\ In journal_version [journal_version; repository_copy]
  /\ exists k w',
       @dedupe_key AsciiText.builtins journal_version = Ok k
       /\ In w' [repository_copy]
       /\ @dedupe_key AsciiText.builtins w' = Ok k.
Proof.
  assert (H : @dedupe_works AsciiText.builtins [journal_version; repository_copy]
              = Ok [repository_copy]) by (vm_compute; reflexivity).
  assert (Hin : In journal_version [journal_version; repository_copy])
    by (left; reflexivity).
  split; [exact H |]. split; [exact Hin |].
  exact (dedupe_works_complete AsciiText.builtins _ _ _ H Hin).
Defined.

Lemma dedupe_works_distinct_witness :
  @dedupe_works AsciiText.builtins [raw_work 2020 5; raw_work 2021 7]
  = Ok [raw_work 2020 5; raw_work 2021 7].
Proof.
  apply (dedupe_works_distinct AsciiText.builtins _ [("fuzzy", "|2020|"); ("fuzzy", "|2021|")]).
  - repeat constructor.
  - repeat constructor; simpl; [intros [E | []]; discriminate E | intros []].
Defined.

Lemma different_doi_never_merged_witness :
  @dedupe_works AsciiText.builtins
    [repository_copy; VDict [("doi", VStr "10.1/other"); ("title", VStr "Same title")]]
  = Ok [repository_copy; VDict [("doi", VStr "10.1/other"); ("title", VStr "Same title")]].
Proof.
  apply (different_doi_never_merged AsciiText.builtins repository_copy
           (VDict [("doi", VStr "10.1/other"); ("title", VStr "Same title")])
           "10.1/example" (Some "10.1/other") ("doi", "10.1/other")).
  - vm_compute; reflexivity.
  - vm_compute; reflexivity.
  - discriminate.
  - vm_compute; reflexivity.
Defined.

Lemma dedupe_works_key_failure_witness :
  @dedupe_works AsciiText.builtins
    [repository_copy; VDict [("title", VInt 7)]; journal_version]
  = Raise AttributeError.
Proof.
  apply (dedupe_works_key_failure AsciiText.builtins [repository_copy] [journal_version]
           (VDict [("title", VInt 7)]) AttributeError).
  - constructor; [| constructor]. eexists. vm_compute; reflexivity.
  - vm_compute; reflexivity.
Defined.

Lemma winner_most_cited_witness :
  journal_version = repository_copy
  \/ exists h c b c' b',
       @score AsciiText.builtins repository_copy = Ok (h, c, b)
       /\ @score AsciiText.builtins journal_version = Ok (h, c', b')
       /\ (c' < c \/ (c' = c /\ b' <= b)).
Proof.
  apply (winner_most_cited AsciiText.builtins [journal_version; repository_copy]
           [repository_copy] repository_copy journal_version ("doi", "10.1/example")).
  - vm_compute; reflexivity.
  - left; reflexivity.
  - vm_compute; reflexivity.
  - left; reflexivity.
  - vm_compute; reflexivity.
Defined.

Lemma dedupe_works_order_witness :
  exists ks kout,
    Forall2 (fun w k => @dedupe_key AsciiText.builtins w = Ok k)
            [raw_work 2021 7; repository_copy; raw_work 2021 1; journal_version] ks
    /\ Forall2 (fun w k => @dedupe_key AsciiText.builtins w = Ok k)
               [raw_work 2021 7; repository_copy] kout
    /\ kout = keep_first ks.
Proof.
  apply (dedupe_works_order AsciiText.builtins).
  vm_compute; reflexivity.
Defined.

Lemma normalize_author_id_shape_witness :
  @normalize_author_id AsciiText.builtins (Some " https://openalex.org/a504 ") = Ok "A504"
  /\ startswith "A504" "A" = true.
Proof.
  assert (H : @normalize_author_id AsciiText.builtins (Some " https://openalex.org/a504 ")
              = Ok "A504") by (vm_compute; reflexivity).
  split; [exact H |].
  exact (proj1 (normalize_author_id_shape AsciiText.builtins _ _ H)).
Defined.

Lemma pick_best_url_shape_witness :
  pick_best_url (VDict [("id", VStr "W123")]) = Ok "https://openalex.org/W123"
  /\ "https://openalex.org/W123" <> "".
Proof.
  assert (H : pick_best_url (VDict [("id", VStr "W123")]) = Ok "https://openalex.org/W123")
    by (vm_compute; reflexivity).
  split; [exact H |].
  exact (proj1 (pick_best_url_shape _ _ H)).
Defined.

Lemma normalize_work_invariants_witness :
  exists p,
    @normalize_work AsciiText.builtins (VDict [("title", VStr "   ")]) "A1" = Ok p
    /\ p_title p <> "".
Proof.
  eexists. split; [vm_compute; reflexivity |].
  apply (normalize_work_invariants AsciiText.builtins (VDict [("title", VStr "   ")]) "A1").
  vm_compute; reflexivity.
Defined.

Lemma extract_is_oa_strict_witness :
  extract_is_oa (VDict [("open_access", VDict [("is_oa", VInt 1)])]) = Ok false
  /\ (false = true
      <-> exists oa,
            py_get (VDict [("open_access", VDict [("is_oa", VInt 1)])]) "open_access"
            = Ok (VDict oa)
            /\ dict_get "is_oa" oa = Some (VBool true)).
Proof.
  assert (H : extract_is_oa (VDict [("open_access", VDict [("is_oa", VInt 1)])]) = Ok false)
    by (vm_compute; reflexivity).
  split; [exact H |].
  exact (extract_is_oa_strict _ _ H).
Defined.


Lemma normalize_work_flat_witness :
  exists p,
    @normalize_work AsciiText.builtins
      (VDict [("title", VStr "A study"); ("publication_year", VStr "2020"); ("ids", VNone)])
      "A1" = Ok p
    /\ p_venue p = "—" /\ p_hal_url p = None /\ p_is_oa p = false
    /\ p_oa_status p = "unknown" /\ p_topics p = [] /\ p_keywords p = []
    /\ p_coauthors p = []
    /\ p_year p
       = @_safe_int AsciiText.builtins
           (field [("title", VStr "A study"); ("publication_year", VStr "2020"); ("ids", VNone)]
                  "publication_year")
    /\ p_citations p
       = int_or_zero
           (@_safe_int AsciiText.builtins
              (field [("title", VStr "A study"); ("publication_year", VStr "2020");
                      ("ids", VNone)]
                     "cited_by_count")).
Proof.
  apply (normalize_work_flat AsciiText.builtins ascii_laws).
  - repeat constructor.
  - repeat constructor.
Defined.

Lemma aggregates_order_independent_witness :
  exists p1 p2,
    mapM (fun w => @normalize_work AsciiText.builtins w "A1")
         [raw_work 2020 5; raw_work 2021 7] = Ok [p1; p2]
    /\ build_citations_by_year [p1; p2] = build_citations_by_year [p2; p1].
Proof.
  eexists. eexists. split; [vm_compute; reflexivity |].
  apply aggregates_order_independent. apply perm_swap.
Defined.

Lemma report_provenance_witness :
  exists r ws,
    @main AsciiText.builtins None
      (fun _ => Ok [raw_work 2020 5; raw_work 2021 7; raw_work 2020 3]) "now" = Ok r
    /\ (fun _ : string => Ok [raw_work 2020 5; raw_work 2021 7; raw_work 2020 3])
         (author_openalex_id r) = Ok ws
    /\ papers_tracked r = Z.of_nat (List.length (works r))
    /\ (List.length (works r) <= List.length ws)%nat.
Proof.
  assert (H : exists r,
             @main AsciiText.builtins None
               (fun _ => Ok [raw_work 2020 5; raw_work 2021 7; raw_work 2020 3]) "now" = Ok r)
    by (eexists; vm_compute; reflexivity).
  destruct H as (r & H). exists r.
  destruct (report_provenance AsciiText.builtins _ _ _ _ H) as (ws & Hws & Hn & Hlen & _).
  exists ws. repeat split; assumption.
Defined.

Lemma main_all_or_nothing_witness :
  @main AsciiText.builtins None (fun _ => Raise ValueError) "now" = Raise ValueError.
Proof.
  apply (main_all_or_nothing AsciiText.builtins None (fun _ => Raise ValueError) "now"
           "A5042578790" ValueError).
  - vm_compute; reflexivity.
  - reflexivity.
Defined.

Lemma fetch_all_pages_witness :
  fetch_all_works_for_author two_page_server (fun _ => []) 5 "A1" 200
  = Ok (Some [raw_work 2020 5; raw_work 2021 7; raw_work 2019 1]).
Proof.
  apply (fetch_all_pages two_page_server (fun _ => []) "A1" 200
           [([raw_work 2020 5; raw_work 2021 7], VStr "c2")] (VStr "c2")
           (VDict [("meta", VDict [("next_cursor", VNone)]);
                   ("results", VList [raw_work 2019 1])])
           [raw_work 2019 1] VNone 5).
  - simpl. split; [| split; reflexivity].
    eexists. split; [reflexivity |]. split; [reflexivity |].
    eexists. split; reflexivity.
  - reflexivity.
  - split; [reflexivity |]. eexists. split; reflexivity.
  - reflexivity.
  - simpl. lia.
Defined.


(** ** Where the wording goes beyond the code *)

(** Two DOIs that agree once lower-cased, rid of the prefix and trimmed, in
    that order, and yet derive different keys: the space after "doi:" is
    kept by [_norm_doi]. *)
Lemma doi_key_worded_counterexample :
  @doi_normalised_as_worded AsciiText.builtins "doi: 10.1/x" = "10.1/x"
  /\ @doi_normalised_as_worded AsciiText.builtins "10.1/x" = "10.1/x"
  /\ "10.1/x" <> ""
  /\ @dedupe_key AsciiText.builtins (VDict [("doi", VStr "doi: 10.1/x")])
     = Ok ("doi", " 10.1/x")
  /\ @dedupe_key AsciiText.builtins (VDict [("doi", VStr "10.1/x")])
     = Ok ("doi", "10.1/x")
  /\ @dedupe_key AsciiText.builtins (VDict [("doi", VStr "doi: 10.1/x")])
     <> @dedupe_key AsciiText.builtins (VDict [("doi", VStr "10.1/x")]).
Proof.
  repeat split; try (vm_compute; reflexivity); vm_compute; discriminate.
Qed.

(** A work without a year that does not come last: the work of year -1
    follows it. *)
Lemma missing_year_not_last_counterexample :
  exists r,
    @main AsciiText.builtins None
      (fun _ => Ok [raw_work 2020 5; VDict [("title", VStr "No year")]; raw_work (-1) 1])
      "now" = Ok r
    /\ map p_year (works r) = [Some 2020; None; Some (-1)].
Proof.
  eexists. split; [vm_compute; reflexivity | reflexivity].
Qed.

(** With the variable unset the pipeline does not abort: it runs with the
    default identifier. *)
Lemma missing_author_id_runs_counterexample :
  exists r,
    @main AsciiText.builtins None (fun _ => Ok []) "now" = Ok r
    /\ author_openalex_id r = "A5042578790"
    /\ works r = [].
Proof.
  eexists. split; [vm_compute; reflexivity |]. split; reflexivity.
Qed.
